(** * Starship re-entry simulator: trajectory integrator and heat-field shaders

    Shallow embedding of the per-frame integrator ([Starship]'s [useFrame]
    callback) and of the [AtmosphereMaterial] fragment shaders of
    littlejoeyc/starship-reentry-sim.

    Number model.  A JavaScript [Number] and a GLSL [float] are idealised as
    real numbers: [+], [-], [*] are exact, [Math.exp]/[exp] is the real
    exponential, [Math.pow(v, 3)] is [v ^ 3], [Math.max]/[max] is [Rmax].
    Rounding and overflow are outside this model.  A division by a non-zero
    literal is real division.  The slab stage of the ray marcher divides 1.0
    by the components of the ray direction and relies on the infinities this
    gives for a ray parallel to an axis: its values are reals extended with
    the two infinities ([xreal]).  Everything else that leaves the reals is
    [None]: [normalize] of the zero vector, a division by a uniform that is
    zero, a product of zero and an infinity, an infinite march interval.

    Where a property turns on rounding, overflow or NaN, the integrator of
    src/App.js is read a second time with the [Number]s the engine has,
    IEEE 754 binary64 with rounding to nearest even ([Module Binary64], on
    the Standard Library's [SpecFloat]).  A lemma says which of the two
    readings it is about by the definitions it names.

    A uniform or a field that shares its name with another one in scope is
    prefixed ([u_effectiveHeat] is the uniform [effectiveHeat]).  The
    ray-marching shader returns, next to its fragment, the list of points at
    which it evaluated the heat field; the list is not part of the source
    and serves to state where the shader samples. *)

From Stdlib Require Import Reals Lra Lia List Permutation Bool.
From Stdlib Require Import ZArith SpecFloat.
Import ListNotations.
Local Open Scope R_scope.

(** ** Partial operations *)

Definition bind {A B : Type} (o : option A) (k : A -> option B) : option B :=
  match o with
  | Some a => k a
  | None => None
  end.

Notation "x <- e ;; k" := (bind e (fun x => k))
  (at level 61, e at next level, right associativity).

(** GLSL division by a value that is not a non-zero literal. *)
Definition fdiv (a b : R) : option R :=
  if Req_dec_T b 0 then None else Some (a / b).

(** ** GLSL vectors and the built-ins the shaders use *)

Record vec3 : Type := Vec3 { vx : R; vy : R; vz : R }.
Record vec4 : Type := Vec4 { rgb : vec3; alpha : R }.

Definition vadd (a b : vec3) : vec3 :=
  Vec3 (vx a + vx b) (vy a + vy b) (vz a + vz b).
Definition vsub (a b : vec3) : vec3 :=
  Vec3 (vx a - vx b) (vy a - vy b) (vz a - vz b).
Definition vneg (a : vec3) : vec3 := Vec3 (- vx a) (- vy a) (- vz a).
Definition vmul (a b : vec3) : vec3 :=
  Vec3 (vx a * vx b) (vy a * vy b) (vz a * vz b).
Definition vscale (a : vec3) (k : R) : vec3 :=
  Vec3 (vx a * k) (vy a * k) (vz a * k).
Definition vmin (a b : vec3) : vec3 :=
  Vec3 (Rmin (vx a) (vx b)) (Rmin (vy a) (vy b)) (Rmin (vz a) (vz b)).
Definition vmax (a b : vec3) : vec3 :=
  Vec3 (Rmax (vx a) (vx b)) (Rmax (vy a) (vy b)) (Rmax (vz a) (vz b)).

(** [length(v)] and [length(v.xz)]. *)
Definition length3 (v : vec3) : R :=
  sqrt (vx v * vx v + vy v * vy v + vz v * vz v).
Definition length_xz (v : vec3) : R := sqrt (vx v * vx v + vz v * vz v).

(** [normalize(v)]: [v / length(v)], unspecified for the zero vector. *)
Definition normalize (v : vec3) : option vec3 :=
  x' <- fdiv (vx v) (length3 v) ;;
  y' <- fdiv (vy v) (length3 v) ;;
  z' <- fdiv (vz v) (length3 v) ;;
  Some (Vec3 x' y' z').

(** ** Reals with infinities, for the slab stage *)

Inductive xreal : Type :=
| Finite (r : R)
| PosInf
| NegInf.

Record xvec3 : Type := XVec3 { xx : xreal; xy : xreal; xz : xreal }.

(** [x < y]. *)
Definition xlt (x y : xreal) : Prop :=
  match x, y with
  | Finite a, Finite b => a < b
  | Finite _, PosInf => True
  | NegInf, Finite _ => True
  | NegInf, PosInf => True
  | _, _ => False
  end.

Definition xlt_dec (x y : xreal) : {xlt x y} + {~ xlt x y} :=
  match x, y return {xlt x y} + {~ xlt x y} with
  | Finite a, Finite b => Rlt_dec a b
  | Finite _, PosInf => left I
  | NegInf, Finite _ => left I
  | NegInf, PosInf => left I
  | Finite _, NegInf => right (fun H => H)
  | PosInf, _ => right (fun H => H)
  | NegInf, NegInf => right (fun H => H)
  end.

(** GLSL [min(x, y)] is [y] if [y < x], else [x]; [max(x, y)] is [y] if
    [x < y], else [x]. *)
Definition xmin (x y : xreal) : xreal := if xlt_dec y x then y else x.
Definition xmax (x y : xreal) : xreal := if xlt_dec x y then y else x.

(** [1.0 / d].  A zero [d] is the difference of two equal coordinates, a
    positive zero, and its inverse is the positive infinity. *)
Definition xinv (d : R) : xreal :=
  if Req_dec_T d 0 then PosInf else Finite (1 / d).

(** [a * x] for a real [a]; zero times an infinity is not a number. *)
Definition xmul (a : R) (x : xreal) : option xreal :=
  match x with
  | Finite r => Some (Finite (a * r))
  | PosInf =>
      if Rlt_dec 0 a then Some PosInf
      else if Rlt_dec a 0 then Some NegInf else None
  | NegInf =>
      if Rlt_dec 0 a then Some NegInf
      else if Rlt_dec a 0 then Some PosInf else None
  end.

(** [1.0 / v], [a * b], [min(a, b)] and [max(a, b)], componentwise. *)
Definition xvinv (v : vec3) : xvec3 :=
  XVec3 (xinv (vx v)) (xinv (vy v)) (xinv (vz v)).
Definition xvmul (a : vec3) (b : xvec3) : option xvec3 :=
  x' <- xmul (vx a) (xx b) ;;
  y' <- xmul (vy a) (xy b) ;;
  z' <- xmul (vz a) (xz b) ;;
  Some (XVec3 x' y' z').
Definition xvmin (a b : xvec3) : xvec3 :=
  XVec3 (xmin (xx a) (xx b)) (xmin (xy a) (xy b)) (xmin (xz a) (xz b)).
Definition xvmax (a b : xvec3) : xvec3 :=
  XVec3 (xmax (xx a) (xx b)) (xmax (xy a) (xy b)) (xmax (xz a) (xz b)).

(** What a fragment shader invocation leaves behind: [discard], or a value
    of [gl_FragColor]. *)
Inductive Fragment : Type :=
| Discard
| FragColor (c : vec4).

(** The object kept in React state by [useState] in [App], in the variants
    that publish three fields. *)
Record SimulationState : Type := mkState {
  altitude : R;
  speed : R;
  effectiveHeat : R
}.

(** ** src/App.js *)

Module App.

(** *** [AtmosphereMaterial]: uniforms and fragment shader *)

Record Uniforms : Type := mkUniforms {
  u_effectiveHeat : R;
  baseTemp : R;
  plasmaThreshold : R
}.

(** The defaults handed to [shaderMaterial]. *)
Definition defaultUniforms : Uniforms := mkUniforms 0 300 3000.

Definition plasmaColor : vec3 := Vec3 (128 / 255) 0 (128 / 255).

(** The [if (temperature >= plasmaThreshold) ... else ...] statement that
    assigns [color]. *)
Definition color (u : Uniforms) (temperature : R) : option vec3 :=
  if Rge_dec temperature (plasmaThreshold u) then Some plasmaColor
  else
    t <- fdiv (temperature - baseTemp u) (plasmaThreshold u - baseTemp u) ;;
    Some (Vec3 t 0 (1 - t)).

(** [temperature] as the shader computes it at a fragment. *)
Definition temperature (u : Uniforms) (vPosition : vec3) : R :=
  let d := length_xz vPosition in
  let localHeat := u_effectiveHeat u * exp (- d / 3) in
  baseTemp u + localHeat * 1e6.

(** Fragment shader [main]: the value written to [gl_FragColor]. *)
Definition main (u : Uniforms) (vPosition : vec3) : option vec4 :=
  c <- color u (temperature u vPosition) ;;
  Some (Vec4 c 0.8).

(** *** [Starship]: the integrator *)

(** Constants declared at the top of [Starship]. *)
Definition rho0 : R := 1.225.
Definition scaleHeight : R := 8400.
Definition scalingFactor : R := 0.000000000012.
Definition terminalVelocity : R := 200.
Definition g : R := 9.81.

(** The [useFrame((state, delta) => ...)] callback of [Starship].  The value
    returned is the simulation state after the frame: the argument of
    [setSimulationState] when it is called, the untouched state when the
    callback returns early. *)
Definition useFrame (isRunning : bool) (magnetPower : R)
    (simulationState : SimulationState) (delta : R) : SimulationState :=
  if negb isRunning then simulationState else
  let altitude := altitude simulationState in
  let speed := speed simulationState in
  if Rle_dec altitude 0 then simulationState else
  let density := rho0 * exp (- altitude / scaleHeight) in
  let heatFlux := density * speed ^ 3 in
  let reductionFactor := 1 - magnetPower / 5 in
  let effectiveHeat := heatFlux * reductionFactor * scalingFactor in
  let dragDeceleration := density * 0.81 * speed in
  let computedSpeed := speed - (g + dragDeceleration) * delta in
  let newSpeed :=
    if Rgt_dec altitude 0 then Rmax computedSpeed terminalVelocity else 0 in
  let newAltitude := Rmax (altitude - newSpeed * delta) 0 in
  mkState newAltitude newSpeed effectiveHeat.

(** The initial state of [useState] and of [handleRestart]. *)
Definition initialState : SimulationState := mkState 120000 7222.22 0.

End App.

(** ** The variant that also publishes [plasmaFluxDensity]
    (quadratic-in-speed drag) *)

Module PlasmaFluxApp.

Record SimulationState : Type := mkState {
  altitude : R;
  speed : R;
  effectiveHeat : R;
  plasmaFluxDensity : R
}.

Definition rho0 : R := 1.225.
Definition scaleHeight : R := 8400.
Definition scalingFactor : R := 0.000000000012.
Definition terminalVelocity : R := 200.

(** The [useFrame] callback of [Starship]. *)
Definition useFrame (isRunning : bool) (magnetPower : R)
    (simulationState : SimulationState) (delta : R) : SimulationState :=
  if negb isRunning then simulationState else
  let altitude := altitude simulationState in
  let speed := speed simulationState in
  if Rle_dec altitude 0 then simulationState else
  let density := rho0 * exp (- altitude / scaleHeight) in
  let plasmaFluxDensity := density * speed ^ 3 in
  let F_drag := 0.5 * density * speed ^ 2 * 0.81 * (50 * 10) in
  let a := - 9.81 - F_drag / 2e5 in
  let newSpeed :=
    if Rgt_dec altitude 0 then Rmax (speed + a * delta) terminalVelocity
    else 0 in
  let newAltitude := Rmax (altitude - newSpeed * delta) 0 in
  let reductionFactor := 1 - magnetPower / 5 in
  let effectiveHeat := plasmaFluxDensity * reductionFactor * scalingFactor in
  mkState newAltitude newSpeed effectiveHeat plasmaFluxDensity.

Definition initialState : SimulationState := mkState 120000 7222 0 0.

End PlasmaFluxApp.

(** ** The ray-marching variant *)

Module RayMarchApp.

(** *** [AtmosphereMaterial]: uniforms and fragment shader *)

Record Uniforms : Type := mkUniforms {
  u_effectiveHeat : R;
  baseTemp : R;
  plasmaThreshold : R;
  hDecayScale : R;
  vDecayScale : R;
  rayOrigin : vec3;
  boxHalfSize : vec3
}.

(** The defaults handed to [shaderMaterial]. *)
Definition defaultUniforms : Uniforms :=
  mkUniforms 0 300 3000 3 5 (Vec3 0 0 0) (Vec3 50 5 50).

Definition plasmaColor : vec3 := Vec3 (128 / 255) 0 (128 / 255).

(** The [if (temperature >= plasmaThreshold) ... else ...] statement that
    assigns [sampleColor]. *)
Definition sampleColor (u : Uniforms) (temperature : R) : option vec3 :=
  if Rge_dec temperature (plasmaThreshold u) then Some plasmaColor
  else
    tVal <- fdiv (temperature - baseTemp u) (plasmaThreshold u - baseTemp u) ;;
    Some (Vec3 tVal 0 (1 - tVal)).

(** [temperature] as the loop body computes it at [samplePos]. *)
Definition temperature (u : Uniforms) (samplePos : vec3) : option R :=
  h <- fdiv (- length_xz samplePos) (hDecayScale u) ;;
  let horizontalFactor := exp h in
  v <- fdiv (vy samplePos + 5) (vDecayScale u) ;;
  let verticalFactor := exp (- v) in
  let localHeat := u_effectiveHeat u * horizontalFactor * verticalFactor in
  Some (baseTemp u + localHeat * 1e6).

(** [samplePos] of iteration [i]. *)
Definition samplePos (u : Uniforms) (rayDir : vec3) (tmin dt : R) (i : nat)
    : vec3 :=
  let t := tmin + dt * INR i in
  vadd (rayOrigin u) (vscale rayDir t).

(** The colour sampled at a point: the loop body up to [sampleColor]. *)
Definition sample (u : Uniforms) (p : vec3) : option vec3 :=
  temperature <- temperature u p ;;
  sampleColor u temperature.

(** The [for (int i = 0; i < 200; i++)] loop, with [n] iterations left to run
    from index [i].  Next to [maxColor] it records the list of points at
    which the heat field has been evaluated, oldest first. *)
Fixpoint march (u : Uniforms) (rayDir : vec3) (tmin dt : R) (n i : nat)
    (maxColor : vec3) (visited : list vec3) : option (vec3 * list vec3) :=
  match n with
  | O => Some (maxColor, visited)
  | S n' =>
      let p := samplePos u rayDir tmin dt i in
      c <- sample u p ;;
      march u rayDir tmin dt n' (S i) (vmax maxColor c) (visited ++ [p])
  end.

(** The slab method: [(tmin, tmax)] for the ray from [rayOrigin] along
    [rayDir]. *)
Definition slabs (u : Uniforms) (rayDir : vec3) : option (xreal * xreal) :=
  let invDir := xvinv rayDir in
  t0s <- xvmul (vsub (vneg (boxHalfSize u)) (rayOrigin u)) invDir ;;
  t1s <- xvmul (vsub (boxHalfSize u) (rayOrigin u)) invDir ;;
  let tsmaller := xvmin t0s t1s in
  let tbigger := xvmax t0s t1s in
  let tmin := xmax (xmax (xx tsmaller) (xy tsmaller)) (xz tsmaller) in
  let tmax := xmin (xmin (xx tbigger) (xy tbigger)) (xz tbigger) in
  Some (tmin, tmax).

Definition steps : nat := 200.

(** Fragment shader [main]: the fragment it leaves, and the points at which
    it evaluated the heat field. *)
Definition main (u : Uniforms) (vPosition : vec3)
    : option (Fragment * list vec3) :=
  rayDir <- normalize (vsub vPosition (rayOrigin u)) ;;
  tt <- slabs u rayDir ;;
  let tmin := fst tt in
  let tmax := snd tt in
  if xlt_dec tmax (Finite 0) then Some (Discard, [])
  else if xlt_dec tmax tmin then Some (Discard, [])
  else
    match tmin, tmax with
    | Finite tmin, Finite tmax =>
        let dt := (tmax - tmin) / INR steps in
        r <- march u rayDir tmin dt 200 0 (Vec3 0 0 0) [] ;;
        Some (FragColor (Vec4 (fst r) 0.4), snd r)
    | _, _ => None
    end.

(** *** [AtmosphereVolume]: the per-frame uniform update *)

Definition AtmosphereVolume_useFrame (u : Uniforms)
    (simulationState : SimulationState) (cameraPosition : vec3)
    (shipBottomY : R) : Uniforms :=
  let localCamPos :=
    Vec3 (vx cameraPosition) (vy cameraPosition - shipBottomY)
         (vz cameraPosition) in
  mkUniforms (effectiveHeat simulationState) (baseTemp u) (plasmaThreshold u)
             (hDecayScale u) (vDecayScale u) localCamPos (boxHalfSize u).

(** *** [Starship]: the integrator *)

Definition rho0 : R := 1.225.
Definition scaleHeight : R := 8400.
Definition scalingFactor : R := 0.000000000012.
Definition terminalVelocity : R := 200.
Definition g : R := 9.81.

(** The [useFrame] callback of [Starship]. *)
Definition useFrame (isRunning : bool) (magnetPower : R)
    (simulationState : SimulationState) (delta : R) : SimulationState :=
  if negb isRunning then simulationState else
  let altitude := altitude simulationState in
  let speed := speed simulationState in
  if Rle_dec altitude 0 then simulationState else
  let density := rho0 * exp (- altitude / scaleHeight) in
  let heatFlux := density * speed ^ 3 in
  let reductionFactor := 1 - magnetPower / 5 in
  let effectiveHeat := heatFlux * reductionFactor * scalingFactor in
  let dragDeceleration := density * 0.81 * speed in
  let computedSpeed := speed - (g + dragDeceleration) * delta in
  let newSpeed :=
    if Rgt_dec altitude 0 then Rmax computedSpeed terminalVelocity else 0 in
  let newAltitude := Rmax (altitude - newSpeed * delta) 0 in
  mkState newAltitude newSpeed effectiveHeat.

Definition initialState : SimulationState := mkState 120000 7222.22 0.

End RayMarchApp.

(** ** src/App.js with binary64 numbers *)

Module Binary64.

(** *** [Number] *)

Definition prec : Z := 53.
Definition emax : Z := 1024.

(** A [Number]: a signed zero, an infinity, NaN, or [(-1)^s * m * 2^e]. *)
Definition number : Type := spec_float.

Definition NaN : number := S754_nan.
Definition Infinity : number := S754_infinity false.

(** An integer literal, and a decimal literal [n / d] with [n] and [d]
    below [2^53]: the binary64 number nearest to it. *)
Definition of_Z (z : Z) : number := binary_normalize prec emax z 0 false.
Definition decimal (n d : Z) : number := SFdiv prec emax (of_Z n) (of_Z d).

(** [+], binary and unary [-], [*], [/], [<=], [<]. *)
Definition add : number -> number -> number := SFadd prec emax.
Definition sub : number -> number -> number := SFsub prec emax.
Definition mul : number -> number -> number := SFmul prec emax.
Definition div : number -> number -> number := SFdiv prec emax.
Definition neg : number -> number := SFopp.
Definition leb : number -> number -> bool := SFleb.
Definition ltb : number -> number -> bool := SFltb.

(** [Math.max(x, y)]: NaN when either argument is NaN, and [+0] counts as
    larger than [-0]. *)
Definition Math_max (x y : number) : number :=
  match SFcompare x y with
  | None => NaN
  | Some Lt => y
  | Some Gt => x
  | Some Eq =>
      match x with
      | S754_zero true => y
      | _ => x
      end
  end.

(** [Math.exp] and [Math.pow] are left to the engine by ECMAScript, up to
    the results at NaN, the zeros and the infinities.  The integrator below
    takes the engine's [Math.exp] and [x => Math.pow(x, 3)] as arguments;
    [forced_exp] and [forced_pow_3] are these two functions where every
    engine that rounds to nearest agrees, and [None] elsewhere.

    [forced_exp]: for [x <= -746] the exponential of [x] is below [2^-1075],
    half of the least positive number, and for [x >= 710] it is above
    [2^1024]; the nearest number is [+0] and [Infinity]. *)
Definition forced_exp (x : number) : option number :=
  match x with
  | S754_nan => Some NaN
  | S754_zero _ => Some (of_Z 1)
  | S754_infinity false => Some Infinity
  | S754_infinity true => Some (S754_zero false)
  | S754_finite _ _ _ =>
      if leb x (of_Z (-746)) then Some (S754_zero false)
      else if leb (of_Z 710) x then Some Infinity
      else None
  end.

(** [forced_pow_3]: NaN, the zeros and the infinities are returned as they
    are (3 is odd).  The cube of [(-1)^s * m * 2^e] is
    [(-1)^s * m^3 * 2^(3e)]; where the number nearest to it is an infinity
    the result is that infinity. *)
Definition forced_pow_3 (x : number) : option number :=
  match x with
  | S754_finite s m e =>
      match binary_normalize prec emax (Zpos (m * m * m)) (3 * e) false with
      | S754_infinity _ => Some (S754_infinity s)
      | _ => None
      end
  | _ => Some x
  end.

(** The value of a finite number as a real; 0 for the others. *)
Definition toR (x : number) : R :=
  match x with
  | S754_finite s m e =>
      let v := match e with
               | Zneg p => IZR (Zpos m) / IZR (Z.pow_pos 2 p)
               | _ => IZR (Zpos m * 2 ^ e)
               end in
      if s then - v else v
  | _ => 0
  end.

(** *** [Starship]: the integrator *)

Record SimulationState : Type := mkState {
  altitude : number;
  speed : number;
  effectiveHeat : number
}.

Definition rho0 : number := decimal 1225 1000.
Definition scaleHeight : number := of_Z 8400.
Definition scalingFactor : number := decimal 12 (10 ^ 12).
Definition terminalVelocity : number := of_Z 200.
Definition g : number := decimal 981 100.

(** [const reductionFactor = 1 - magnetPower / 5]. *)
Definition reductionFactor (magnetPower : number) : number :=
  sub (of_Z 1) (div magnetPower (of_Z 5)).

(** The [useFrame] callback of [Starship], for an engine whose [Math.exp]
    is [Math_exp] and whose [Math.pow(x, 3)] is [Math_pow_3 x]; [None] where
    one of them is. *)
Definition useFrame (Math_exp Math_pow_3 : number -> option number)
    (isRunning : bool) (magnetPower : number)
    (simulationState : SimulationState) (delta : number)
    : option SimulationState :=
  if negb isRunning then Some simulationState else
  let altitude := altitude simulationState in
  let speed := speed simulationState in
  if leb altitude (of_Z 0) then Some simulationState else
  e <- Math_exp (div (neg altitude) scaleHeight) ;;
  let density := mul rho0 e in
  p <- Math_pow_3 speed ;;
  let heatFlux := mul density p in
  let reductionFactor := reductionFactor magnetPower in
  let effectiveHeat := mul (mul heatFlux reductionFactor) scalingFactor in
  let dragDeceleration := mul (mul density (decimal 81 100)) speed in
  let computedSpeed := sub speed (mul (add g dragDeceleration) delta) in
  let newSpeed :=
    if ltb (of_Z 0) altitude then Math_max computedSpeed terminalVelocity
    else of_Z 0 in
  let newAltitude := Math_max (sub altitude (mul newSpeed delta)) (of_Z 0) in
  Some (mkState newAltitude newSpeed effectiveHeat).

(** *** The slider *)

(** The values [Number(e.target.value)] takes for the range input with
    [min="0"], [max="4"], [step="0.1"]: the numbers nearest to [k / 10],
    [k = 0, ..., 40]. *)
Definition sliderValue (k : nat) : number := decimal (Z.of_nat k) 10.

End Binary64.

(** ** Running the callback over successive frames *)

(** What one frame hands to the callback: [isRunning], [magnetPower] and the
    measured [delta]. *)
Record Frame : Type := mkFrame {
  isRunning : bool;
  magnetPower : R;
  delta : R
}.

Definition simulate
    (useFrame : bool -> R -> SimulationState -> R -> SimulationState)
    (frames : list Frame) (s : SimulationState) : SimulationState :=
  fold_left (fun s f => useFrame (isRunning f) (magnetPower f) s (delta f))
            frames s.

(** ** Specification-side notions *)

(** The quantities of section 4.1 as functions of what they are computed
    from. *)
Definition density (altitude : R) : R := 1.225 * exp (- altitude / 8400).
Definition reductionFactor (magnetPower : R) : R := 1 - magnetPower / 5.
Definition heatOf (altitude speed magnetPower : R) : R :=
  density altitude * speed ^ 3 * reductionFactor magnetPower * 1.2e-11.

(** The per-channel maximum of a list of colours; there is none for the
    empty list. *)
Definition channelMaxOf (cs : list vec3) : option vec3 :=
  match cs with
  | [] => None
  | c :: cs' => Some (fold_left vmax cs' c)
  end.

(** The two-band colour ramp of section 4.2, as a property of a function
    from temperatures to colours: the fixed plasma colour at and above
    [thr]; [(t, 0, 1 - t)] below it, with [t = (T - base) / (thr - base)];
    and [t] as close to 1 as wanted for [T] close enough below [thr]. *)
Definition rampParameter (base thr T : R) : R := (T - base) / (thr - base).

Definition hardStepRamp (ramp : R -> option vec3) (base thr : R) : Prop :=
  (forall T, thr <= T -> ramp T = Some (Vec3 (128 / 255) 0 (128 / 255))) /\
  (forall T, T < thr ->
     ramp T = Some (Vec3 (rampParameter base thr T) 0
                         (1 - rampParameter base thr T))) /\
  (forall eps, 0 < eps ->
     exists dlt, 0 < dlt /\
       forall T, thr - dlt < T < thr ->
         1 - eps < rampParameter base thr T < 1).

(** [m] is the per-channel maximum of the colours [cs]: no channel of a
    colour of [cs] exceeds that of [m], and each channel of [m] is that
    channel of a colour of [cs]. *)
Definition vle (a b : vec3) : Prop :=
  vx a <= vx b /\ vy a <= vy b /\ vz a <= vz b.

Definition isChannelMax (cs : list vec3) (m : vec3) : Prop :=
  (forall c, In c cs -> vle c m) /\
  (exists c, In c cs /\ vx c = vx m) /\
  (exists c, In c cs /\ vy c = vy m) /\
  (exists c, In c cs /\ vz c = vz m).

(** A colour with no negative channel. *)
Definition nonnegColor (c : vec3) : Prop :=
  0 <= vx c /\ 0 <= vy c /\ 0 <= vz c.

(** A state of the data model: altitude and speed are not negative. *)
Definition stateInvariant (s : SimulationState) : Prop :=
  0 <= altitude s /\ 0 <= speed s.

(** ** More of the source *)

(** *** The surface shader with horizontal and vertical decay *)

Module DecayApp.

Record Uniforms : Type := mkUniforms {
  u_effectiveHeat : R;
  baseTemp : R;
  plasmaThreshold : R;
  hDecayScale : R;
  vDecayScale : R
}.

Definition defaultUniforms : Uniforms := mkUniforms 0 300 3000 3 5.

Definition plasmaColor : vec3 := Vec3 (128 / 255) 0 (128 / 255).

Definition color (u : Uniforms) (temperature : R) : option vec3 :=
  if Rge_dec temperature (plasmaThreshold u) then Some plasmaColor
  else
    t <- fdiv (temperature - baseTemp u) (plasmaThreshold u - baseTemp u) ;;
    Some (Vec3 t 0 (1 - t)).

Definition temperature (u : Uniforms) (vPosition : vec3) : option R :=
  let d := length_xz vPosition in
  h <- fdiv (- d) (hDecayScale u) ;;
  let horizontalFactor := exp h in
  v <- fdiv (vy vPosition + 5) (vDecayScale u) ;;
  let verticalFactor := exp (- v) in
  let localHeat := u_effectiveHeat u * horizontalFactor * verticalFactor in
  Some (baseTemp u + localHeat * 1e6).

(** Fragment shader [main]: the value written to [gl_FragColor]. *)
Definition main (u : Uniforms) (vPosition : vec3) : option vec4 :=
  temperature <- temperature u vPosition ;;
  c <- color u temperature ;;
  Some (Vec4 c 0.4).

End DecayApp.

(** *** src/zWorkingWithHeatAndSpeedGraphApp.js: the integrator whose speed
    floor is 0 *)

Module HeatAndSpeedGraphApp.

Definition rho0 : R := 1.225.
Definition scaleHeight : R := 8400.
Definition scalingFactor : R := 0.000000000012.

(** The [useFrame] callback of [Starship]. *)
Definition useFrame (isRunning : bool) (magnetPower : R)
    (simulationState : SimulationState) (delta : R) : SimulationState :=
  if negb isRunning then simulationState else
  let altitude := altitude simulationState in
  let speed := speed simulationState in
  if Rle_dec altitude 0 then simulationState else
  let density := rho0 * exp (- altitude / scaleHeight) in
  let heatFlux := density * speed ^ 3 in
  let reductionFactor := 1 - magnetPower / 5 in
  let effectiveHeat := heatFlux * reductionFactor * scalingFactor in
  let g := 9.81 in
  let dragDeceleration := density * 0.81 * speed in
  let newSpeed := Rmax (speed - (g + dragDeceleration) * delta) 0 in
  let newAltitude := Rmax (altitude - newSpeed * delta) 0 in
  mkState newAltitude newSpeed effectiveHeat.

Definition initialState : SimulationState := mkState 120000 7800 0.

End HeatAndSpeedGraphApp.

(** *** src/App.js: [GraphOverlay] *)

Module GraphOverlay.

(** An element of [historyRef.current]. *)
Record Entry : Type := mkEntry {
  time : R;
  e_speed : R;
  e_effectiveHeat : R
}.

Definition historyDuration : R := 60000.
Definition effectiveHeatScale : R := 1e9.

(** The [push] and the [filter] at the top of the effect; [now] is the
    value of [performance.now()]. *)
Definition record (now : R) (history : list Entry) (s : SimulationState)
    : list Entry :=
  filter (fun d => if Rle_dec (now - time d) historyDuration
                   then true else false)
         (history ++ [mkEntry now (speed s) (effectiveHeat s)]).

(** [Math.min(x, ...xs)] and [Math.max(x, ...xs)]. *)
Definition Math_min (x : R) (xs : list R) : R := fold_left Rmin xs x.
Definition Math_max (x : R) (xs : list R) : R := fold_left Rmax xs x.

(** The calls made on the 2-D context between [beginPath] and [stroke]. *)
Inductive PathCmd : Type :=
| MoveTo (x y : R)
| LineTo (x y : R).

(** [forEach((d, i) => { ... i === 0 ? moveTo(x, y) : lineTo(x, y) })],
    from index [i] on. *)
Fixpoint strokePath (pt : Entry -> R * R) (i : nat) (h : list Entry)
    : list PathCmd :=
  match h with
  | [] => []
  | d :: h' =>
      (if Nat.eqb i 0 then MoveTo (fst (pt d)) (snd (pt d))
       else LineTo (fst (pt d)) (snd (pt d)))
      :: strokePath pt (S i) h'
  end.

Record Drawing : Type := mkDrawing {
  axes : list PathCmd;
  speedCurve : list PathCmd;
  heatCurve : list PathCmd
}.

(** [(tEnd - t0) / 1000 || 1]. *)
Definition timeRange (t0 tEnd : R) : R :=
  if Req_dec_T ((tEnd - t0) / 1000) 0 then 1 else (tEnd - t0) / 1000.

(** [Math.max(...effectiveHeatValues, 1)]. *)
Definition effectiveHeatMax (history : list Entry) : R :=
  Math_max 1 (map (fun d => e_effectiveHeat d * effectiveHeatScale) history).

Definition timeToX (width t0 tEnd time : R) : R :=
  ((time - t0) / 1000) / timeRange t0 tEnd * width.
Definition speedToY (height speed : R) : R :=
  height - ((speed - 0) / (8000 - 0)) * height.
Definition heatToY (height effectiveHeatMax heat : R) : R :=
  height - ((heat - 0) / (effectiveHeatMax - 0)) * height.

(** The part of the effect that draws, for a canvas of the given size;
    [None] when it returns at [times.length === 0].  The two divisions by a
    computed value are real divisions here; [divisors_nonzero] shows that
    neither divisor is ever zero. *)
Definition draw (width height : R) (history : list Entry) : option Drawing :=
  match map time history with
  | [] => None
  | t :: ts =>
      let t0 := Math_min t ts in
      let tEnd := Math_max t ts in
      let hmax := effectiveHeatMax history in
      Some (mkDrawing
              [MoveTo 0 height; LineTo width height; MoveTo 0 0;
               LineTo 0 height]
              (strokePath (fun d => (timeToX width t0 tEnd (time d),
                                     speedToY height (e_speed d)))
                          0 history)
              (strokePath (fun d => (timeToX width t0 tEnd (time d),
                                     heatToY height hmax
                                       (e_effectiveHeat d
                                        * effectiveHeatScale)))
                          0 history))
  end.

(** The effect: the new history and, when there is a canvas of size
    [(width, height)] and the effect draws, the drawing. *)
Definition useEffect (canvas : option (R * R)) (now : R)
    (history : list Entry) (s : SimulationState)
    : list Entry * option Drawing :=
  let history' := record now history s in
  match canvas with
  | None => (history', None)
  | Some (width, height) => (history', draw width height history')
  end.

(** The point a path command names. *)
Definition target (c : PathCmd) : R * R :=
  match c with
  | MoveTo x y => (x, y)
  | LineTo x y => (x, y)
  end.

End GraphOverlay.

(** *** src/App.js: the [App] component *)

Module AppComponent.

(** The three [useState] cells. *)
Record State : Type := mkApp {
  simulationState : SimulationState;
  magnetPower : R;
  isRunning : bool
}.

Definition initial : State := mkApp (mkState 120000 7222.22 0) 0 true.

(** What can happen: a display frame with its [delta], a click on "Restart
    Simulation", a click on "Stop Simulation", a change of the slider to
    [Number(e.target.value)]. *)
Inductive Event : Type :=
| Tick (delta : R)
| RestartClick
| StopClick
| SliderChange (value : R).

Definition handleRestart (a : State) : State :=
  mkApp (mkState 120000 7222.22 0) (magnetPower a) true.

Definition onEvent (a : State) (e : Event) : State :=
  match e with
  | Tick delta =>
      mkApp (App.useFrame (isRunning a) (magnetPower a) (simulationState a)
                          delta)
            (magnetPower a) (isRunning a)
  | RestartClick => handleRestart a
  | StopClick => mkApp (simulationState a) (magnetPower a) false
  | SliderChange value => mkApp (simulationState a) value (isRunning a)
  end.

Definition run (events : list Event) (a : State) : State :=
  fold_left onEvent events a.

End AppComponent.

(** *** Notions for the properties of this part *)

(** Events as the page can produce them: a frame's [delta] is not negative
    and the slider stays within its [min] and [max]. *)
Definition pageEvent (e : AppComponent.Event) : Prop :=
  match e with
  | AppComponent.Tick delta => 0 <= delta
  | AppComponent.SliderChange value => 0 <= value <= 4
  | _ => True
  end.

(** Bounds on what the page shows. *)
Definition pageInvariant (a : AppComponent.State) : Prop :=
  0 <= altitude (AppComponent.simulationState a) <= 120000 /\
  200 <= speed (AppComponent.simulationState a) <= 7222.22 /\
  0 <= effectiveHeat (AppComponent.simulationState a)
    <= 1.225 * 7222.22 ^ 3 * 1.2e-11 /\
  0 <= AppComponent.magnetPower a <= 4.

(** [x <= y] on the extended reals. *)
Definition xle (x y : xreal) : Prop := ~ xlt y x.

(** A point of the box of half extents [h], faces included. *)
Definition insideBox (h p : vec3) : Prop :=
  (- vx h <= vx p <= vx h) /\
  (- vy h <= vy p <= vy h) /\
  (- vz h <= vz p <= vz h).

(** A colour a display can show: channels in [0, 1], and no green, as all
    colours of the ramp. *)
Definition rampColor (c : vec3) : Prop :=
  0 <= vx c <= 1 /\ vy c = 0 /\ 0 <= vz c <= 1.

(** ** Proof automation *)

(** Unfold the constants of the integrators. *)
Ltac unfold_consts :=
  unfold heatOf, density, reductionFactor,
    App.rho0, App.scaleHeight, App.scalingFactor, App.terminalVelocity, App.g,
    PlasmaFluxApp.rho0, PlasmaFluxApp.scaleHeight,
    PlasmaFluxApp.scalingFactor, PlasmaFluxApp.terminalVelocity in *.

(** Case analysis on every extended real in the context. *)
Ltac xcases :=
  repeat match goal with
         | x : xreal |- _ => destruct x
         end;
  cbn in *; try tauto; try lra.

(** Decide the comparisons of concrete reals met while evaluating the slab
    stage. *)
Ltac decide_reals :=
  repeat (cbn [xlt_dec xmul bind xx xy xz fst snd];
          match goal with
          | |- context [Req_dec_T ?a ?b] => destruct (Req_dec_T a b); try lra
          | |- context [Rlt_dec ?a ?b] => destruct (Rlt_dec a b); try lra
          end).

(** Evaluate [Rmin] and [Rmax] on concrete reals, innermost first. *)
Ltac eval_minmax :=
  repeat match goal with
         | |- context [Rmin ?a ?b] =>
             first [rewrite (Rmin_left a b) by lra
                   |rewrite (Rmin_right a b) by lra]
         | |- context [Rmax ?a ?b] =>
             first [rewrite (Rmax_left a b) by lra
                   |rewrite (Rmax_right a b) by lra]
         end.

(** Case analysis on the comparisons of extended reals, then on the
    extended reals themselves. *)
Ltac xorder :=
  unfold xle, xmin, xmax in *;
  repeat match goal with
         | |- context [xlt_dec ?a ?b] => destruct (xlt_dec a b)
         | H : context [xlt_dec ?a ?b] |- _ => destruct (xlt_dec a b)
         end;
  xcases.

(** For a function [f] from binary64 numbers to the reals: replace each
    [f x], [x] closed, by the quotient of integers it is. *)
Ltac eval_number f :=
  repeat match goal with
  | |- context [f ?x] =>
      lazymatch x with
      | S754_finite _ _ _ => fail
      | _ => let v := eval vm_compute in x in
             replace x with v by (vm_compute; reflexivity)
      end
  end;
  unfold f; cbv beta iota;
  repeat match goal with
  | |- context [Z.pow_pos 2 ?p] =>
      let z := eval vm_compute in (Z.pow_pos 2 p) in
      change (Z.pow_pos 2 p) with z
  end.

(** * Properties *)

(** ** The integrator *)

Section Integrator.

Lemma density_pos a : 0 < density a.
Proof. unfold density. pose proof (exp_pos (- a / 8400)). lra. Qed.

Lemma useFrame_same b m s dt :
  RayMarchApp.useFrame b m s dt = App.useFrame b m s dt.
Proof. reflexivity. Qed.

Lemma useFrame_paused m s dt : App.useFrame false m s dt = s.
Proof. reflexivity. Qed.

Lemma useFrame_grounded b m s dt :
  altitude s <= 0 -> App.useFrame b m s dt = s.
Proof.
  intros H. unfold App.useFrame.
  destruct (negb b); [reflexivity|].
  destruct (Rle_dec (altitude s) 0); [reflexivity | contradiction].
Qed.

(** The frame of a running simulation above the ground, in closed form. *)
Lemma useFrame_airborne m s dt :
  0 < altitude s ->
  let newSpeed :=
    Rmax (speed s - (9.81 + density (altitude s) * 0.81 * speed s) * dt) 200 in
  App.useFrame true m s dt =
    mkState (Rmax (altitude s - newSpeed * dt) 0) newSpeed
            (heatOf (altitude s) (speed s) m).
Proof.
  intros H. unfold App.useFrame. cbn [negb].
  destruct (Rle_dec (altitude s) 0) as [Hle|_]; [lra|].
  destruct (Rgt_dec (altitude s) 0) as [_|Hn]; [|exfalso; apply Hn; exact H].
  unfold_consts. f_equal; lra.
Qed.

Lemma plasmaFlux_useFrame_airborne m s dt :
  0 < PlasmaFluxApp.altitude s ->
  let alt := PlasmaFluxApp.altitude s in
  let v := PlasmaFluxApp.speed s in
  let a := - 9.81 - 0.5 * density alt * v ^ 2 * 0.81 * (50 * 10) / 2e5 in
  let newSpeed := Rmax (v + a * dt) 200 in
  PlasmaFluxApp.useFrame true m s dt =
    PlasmaFluxApp.mkState (Rmax (alt - newSpeed * dt) 0) newSpeed
      (heatOf alt v m) (density alt * v ^ 3).
Proof.
  intros H. unfold PlasmaFluxApp.useFrame. cbn [negb].
  destruct (Rle_dec (PlasmaFluxApp.altitude s) 0) as [Hle|_]; [lra|].
  destruct (Rgt_dec (PlasmaFluxApp.altitude s) 0) as [_|Hn];
    [|exfalso; apply Hn; exact H].
  unfold_consts. f_equal; lra.
Qed.

Lemma simulate_grounded frames s :
  altitude s <= 0 -> simulate App.useFrame frames s = s.
Proof.
  intros H. unfold simulate. induction frames as [|f fs IH]; cbn.
  - reflexivity.
  - rewrite useFrame_grounded by exact H. exact IH.
Qed.

Lemma useFrame_speed_floor m s dt :
  0 < altitude s -> 200 <= speed (App.useFrame true m s dt).
Proof.
  intros H. rewrite useFrame_airborne by exact H. cbn [speed].
  apply Rmax_r.
Qed.

Lemma heatOf_nonneg a v m : 0 <= v -> m <= 5 -> 0 <= heatOf a v m.
Proof.
  intros Hv Hm. unfold heatOf, reductionFactor.
  pose proof (density_pos a) as Hd.
  assert (0 <= v ^ 3) by (apply pow_le; exact Hv).
  assert (0 <= density a * v ^ 3) by nra.
  assert (0 <= 1 - m / 5) by lra.
  assert (0 <= density a * v ^ 3 * (1 - m / 5)) by nra.
  lra.
Qed.

Lemma heatOf_antitone a v m1 m2 :
  0 <= v -> m1 <= m2 -> heatOf a v m2 <= heatOf a v m1.
Proof.
  intros Hv Hm. unfold heatOf, reductionFactor.
  pose proof (density_pos a) as Hd.
  assert (0 <= v ^ 3) by (apply pow_le; exact Hv).
  assert (0 <= density a * v ^ 3) by nra.
  assert (density a * v ^ 3 * (1 - m2 / 5) <= density a * v ^ 3 * (1 - m1 / 5))
    by (apply Rmult_le_compat_l; lra).
  lra.
Qed.

Lemma useFrame_invariant b m s dt :
  stateInvariant s -> stateInvariant (App.useFrame b m s dt).
Proof.
  intros [Ha Hv].
  destruct b; [|rewrite useFrame_paused; split; assumption].
  destruct (Rle_dec (altitude s) 0) as [Hle|Hgt].
  - rewrite useFrame_grounded by exact Hle. split; assumption.
  - rewrite useFrame_airborne by lra. split; cbn [altitude speed].
    + apply Rmax_r.
    + eapply Rle_trans; [|apply Rmax_r]. lra.
Qed.

Lemma useFrame_heat_nonneg b m s dt :
  0 <= speed s -> 0 <= effectiveHeat s -> m <= 5 ->
  0 <= effectiveHeat (App.useFrame b m s dt).
Proof.
  intros Hv Hh Hm.
  destruct b; [|rewrite useFrame_paused; exact Hh].
  destruct (Rle_dec (altitude s) 0) as [Hle|Hgt].
  - rewrite useFrame_grounded by exact Hle. exact Hh.
  - rewrite useFrame_airborne by lra. cbn [effectiveHeat].
    apply heatOf_nonneg; assumption.
Qed.

(** Along any run whose [magnetPower] stays at most 5 (the slider keeps it
    in [0, 4]) the published state satisfies the invariant and the published
    heat is not negative. *)
Lemma simulate_invariant frames :
  Forall (fun f => magnetPower f <= 5) frames ->
  forall s, stateInvariant s -> 0 <= effectiveHeat s ->
  stateInvariant (simulate App.useFrame frames s) /\
  0 <= effectiveHeat (simulate App.useFrame frames s).
Proof.
  unfold simulate. induction 1 as [|f fs Hf _ IH]; intros s Hs Hh; cbn.
  - split; assumption.
  - apply IH.
    + apply useFrame_invariant. exact Hs.
    + apply useFrame_heat_nonneg; [apply Hs | exact Hh | exact Hf].
Qed.

(** Hence the heat handed to the ray-marching shader is never negative. *)
Lemma uniform_heat_nonneg frames u cameraPosition shipBottomY :
  Forall (fun f => magnetPower f <= 5) frames ->
  0 <= RayMarchApp.u_effectiveHeat
         (RayMarchApp.AtmosphereVolume_useFrame u
            (simulate RayMarchApp.useFrame frames RayMarchApp.initialState)
            cameraPosition shipBottomY).
Proof.
  intros HF. cbn [RayMarchApp.AtmosphereVolume_useFrame
                  RayMarchApp.u_effectiveHeat].
  apply (simulate_invariant frames HF App.initialState).
  - split; cbn; lra.
  - cbn. lra.
Qed.

(** The state in which the vehicle touches the ground one metre up at the
    speed floor, on a frame of 16 ms. *)
Lemma landing_frame :
  App.useFrame true 0 (mkState 1 200 0) 0.016 =
    mkState 0 200 (heatOf 1 200 0).
Proof.
  rewrite useFrame_airborne by (cbn; lra). cbn [altitude speed].
  pose proof (density_pos 1) as Hd.
  assert (Hv : Rmax (200 - (9.81 + density 1 * 0.81 * 200) * 0.016) 200 = 200)
    by (apply Rmax_right; lra).
  rewrite Hv. f_equal. rewrite Rmax_right by lra. reflexivity.
Qed.

(** However the ground is reached from the air, the published speed is at
    least 200 there. *)
Lemma landed_speed_at_least_floor frames s :
  0 < altitude s ->
  let s' := simulate App.useFrame frames s in
  altitude s' = 0 -> 200 <= speed s'.
Proof.
  intros Ha. cbv zeta.
  assert (Hinv : 0 < altitude s \/ 200 <= speed s) by (left; exact Ha).
  clear Ha. revert s Hinv. unfold simulate.
  induction frames as [|f fs IH]; intros s Hinv; cbn.
  - intros E. destruct Hinv as [Ha|Hv]; [lra | exact Hv].
  - apply IH. destruct (isRunning f).
    + destruct (Rle_dec (altitude s) 0) as [Hle|Hgt].
      * rewrite useFrame_grounded by exact Hle.
        destruct Hinv as [Ha|Hv]; [lra | right; exact Hv].
      * right. apply useFrame_speed_floor. lra.
    + rewrite useFrame_paused. exact Hinv.
Qed.

(** C1, evaluated on the code: the frame that brings the vehicle from one
    metre to the ground publishes altitude 0 with speed 200, and whatever
    frames follow (any [isRunning], [magnetPower] and [delta]) leave
    (altitude, speed) at (0, 200): the state is terminal and the altitude is
    pinned to 0, but the speed is not brought to 0.  The ray-marching variant
    behaves alike. *)
Theorem C1_grounded_speed_stays_at_floor :
  let landed := App.useFrame true 0 (mkState 1 200 0) 0.016 in
  altitude landed = 0 /\ speed landed = 200 /\
  RayMarchApp.useFrame true 0 (mkState 1 200 0) 0.016 = landed /\
  forall frames,
    let s := simulate App.useFrame frames landed in
    simulate RayMarchApp.useFrame frames landed = s /\
    (altitude s, speed s) = (0, 200) /\ (altitude s, speed s) <> (0, 0).
Proof.
  cbv zeta. split; [|split; [|split; [reflexivity|]]].
  - rewrite landing_frame. reflexivity.
  - rewrite landing_frame. reflexivity.
  - intros frames. split; [reflexivity|].
    rewrite landing_frame, simulate_grounded by (cbn; lra).
    cbn [altitude speed]. split; [reflexivity|].
    intros E. injection E as E. lra.
Qed.

(** C2: from a state above the ground, for every positive [delta] and every
    [magnetPower], the speed published by the frame is at least the terminal
    velocity of 200 m/s, in src/App.js and in the ray-marching variant. *)
Theorem C2_speed_at_least_terminal m s dt :
  0 < altitude s -> 0 < dt ->
  App.terminalVelocity = 200 /\
  200 <= speed (App.useFrame true m s dt) /\
  200 <= speed (RayMarchApp.useFrame true m s dt).
Proof.
  intros Ha _. split; [reflexivity|].
  split; [|change (200 <= speed (App.useFrame true m s dt))];
    apply useFrame_speed_floor; exact Ha.
Qed.

Lemma C2_witness :
  200 <= speed (App.useFrame true 0 App.initialState 1).
Proof.
  apply (C2_speed_at_least_terminal 0 App.initialState 1); cbn; lra.
Defined.

(** The reduction factor at the 41 positions of the slider, as binary64
    computes it. *)
Lemma slider_factor_range k :
  (k <= 40)%nat ->
  0.2 - / 2 ^ 54
    <= Binary64.toR (Binary64.reductionFactor (Binary64.sliderValue k)) <= 1.
Proof.
  intros Hk.
  do 41 (destruct k as [|k]; [eval_number Binary64.toR; lra|]).
  lia.
Qed.

Lemma slider_factor_step k :
  (k < 40)%nat ->
  Binary64.toR (Binary64.reductionFactor (Binary64.sliderValue (S k)))
    < Binary64.toR (Binary64.reductionFactor (Binary64.sliderValue k)).
Proof.
  intros Hk.
  do 40 (destruct k as [|k]; [eval_number Binary64.toR; lra|]).
  lia.
Qed.

Lemma slider_factor_antitone j k :
  (j <= k)%nat -> (k <= 40)%nat ->
  Binary64.toR (Binary64.reductionFactor (Binary64.sliderValue k))
    <= Binary64.toR (Binary64.reductionFactor (Binary64.sliderValue j)).
Proof.
  intros Hjk. induction Hjk as [|k Hjk IH]; intros Hk; [lra|].
  assert (H := slider_factor_step k). specialize (IH ltac:(lia)).
  specialize (H ltac:(lia)). lra.
Qed.

(** At the slider's maximum the code's factor is below 0.2: [4 / 5] rounds
    up to the number above 0.8, and 1 minus that number is
    [0.2 - 1.6 * 2^-55], which is below the real 0.2 and below the number
    the literal [0.2] denotes. *)
Lemma C3_factor_below_0_2_at_slider_maximum :
  let r := Binary64.reductionFactor (Binary64.of_Z 4) in
  Binary64.sliderValue 40 = Binary64.of_Z 4 /\
  r = S754_finite false 7205759403792792 (-55) /\
  Binary64.toR r < 0.2 /\
  Binary64.ltb r (Binary64.decimal 2 10) = true.
Proof.
  cbv zeta. split; [|split; [|split]]; try (vm_compute; reflexivity).
  eval_number Binary64.toR. lra.
Qed.

(** C3, amended.  In exact arithmetic the reduction factor
    [1 - magnetPower / 5] lies in [0.2, 1] for [magnetPower] in [0, 4]; a
    frame above the ground publishes the raw flux times this factor times
    the scaling constant; and for a fixed state of non-negative speed the
    published effective heat does not increase when [magnetPower]
    increases.  As the code computes it, with binary64 numbers, the factor
    lies in [0.2 - 2^-54, 1] at each of the 41 positions of the slider, and
    does not increase from one position to a later one. *)
Theorem C3_reduction_range_and_heat_antitone :
  (forall m, 0 <= m <= 4 ->
     reductionFactor m = 1 - m / 5 /\ 0.2 <= reductionFactor m <= 1) /\
  (forall m s dt, 0 < altitude s ->
     effectiveHeat (App.useFrame true m s dt) =
       density (altitude s) * speed s ^ 3 * reductionFactor m * 1.2e-11) /\
  (forall b s dt m1 m2, 0 <= speed s -> m1 <= m2 ->
     effectiveHeat (App.useFrame b m2 s dt) <=
     effectiveHeat (App.useFrame b m1 s dt)) /\
  (forall k, (k <= 40)%nat ->
     0.2 - / 2 ^ 54
       <= Binary64.toR (Binary64.reductionFactor (Binary64.sliderValue k))
       <= 1) /\
  (forall j k, (j <= k)%nat -> (k <= 40)%nat ->
     Binary64.toR (Binary64.reductionFactor (Binary64.sliderValue k))
       <= Binary64.toR (Binary64.reductionFactor (Binary64.sliderValue j))).
Proof.
  split; [|split; [|split; [|split]]].
  - intros m Hm. unfold reductionFactor. split; [reflexivity | lra].
  - intros m s dt Ha. rewrite useFrame_airborne by exact Ha. reflexivity.
  - intros b s dt m1 m2 Hv Hm. destruct b.
    + destruct (Rle_dec (altitude s) 0) as [Hle|Hgt].
      * rewrite !useFrame_grounded by exact Hle. lra.
      * rewrite !useFrame_airborne by lra. cbn [effectiveHeat].
        apply heatOf_antitone; assumption.
    + rewrite !useFrame_paused. lra.
  - apply slider_factor_range.
  - apply slider_factor_antitone.
Qed.

Lemma C3_witness :
  0.2 <= reductionFactor 4 <= 1 /\
  effectiveHeat (App.useFrame true 4 App.initialState 1) <=
  effectiveHeat (App.useFrame true 0 App.initialState 1) /\
  0.2 - / 2 ^ 54
    <= Binary64.toR (Binary64.reductionFactor (Binary64.sliderValue 40))
    <= Binary64.toR (Binary64.reductionFactor (Binary64.sliderValue 0)).
Proof.
  destruct C3_reduction_range_and_heat_antitone as [Hr [_ [Hm [Hs Ha]]]].
  split; [|split; [|split]].
  - apply Hr. lra.
  - apply Hm; cbn; lra.
  - apply Hs. lia.
  - apply Ha; lia.
Defined.

Lemma Some_eq {A : Type} (x y : A) : Some x = Some y -> x = y.
Proof. intros H. congruence. Qed.

(** [Math.max(x, 0)] is not negative, whatever [x] is. *)
Lemma Math_max_0_not_negative x :
  Binary64.ltb (Binary64.Math_max x (Binary64.of_Z 0)) (Binary64.of_Z 0)
  = false.
Proof. destruct x as [[|]|[|]| |[|] m e]; reflexivity. Qed.

(** With binary64 numbers a frame that goes through to
    [setSimulationState] publishes an altitude that is not negative,
    whatever the engine's [Math.exp] and [Math.pow] return. *)
Lemma binary64_altitude_not_negative Math_exp Math_pow_3 b m s dt s' :
  Binary64.useFrame Math_exp Math_pow_3 b m s dt = Some s' ->
  Binary64.ltb (Binary64.altitude s) (Binary64.of_Z 0) = false ->
  Binary64.ltb (Binary64.altitude s') (Binary64.of_Z 0) = false.
Proof.
  unfold Binary64.useFrame. intros H Hs.
  destruct (negb b); [injection H as <-; exact Hs|].
  destruct (Binary64.leb _ _); [injection H as <-; exact Hs|].
  destruct (Math_exp _) as [e|]; [|discriminate H].
  cbn [bind] in H.
  destruct (Math_pow_3 _) as [p|]; [|discriminate H].
  cbn [bind] in H. apply Some_eq in H. rewrite <- H.
  cbn [Binary64.altitude]. apply Math_max_0_not_negative.
Qed.




(** A frame on which the published heat differs from the heat of the
    published altitude and speed. *)
Lemma heat_lags_at_8400 :
  let s' := App.useFrame true 0 (mkState 8400 200 0) 1 in
  altitude s' = 8200 /\ speed s' = 200 /\
  effectiveHeat s' = heatOf 8400 200 0 /\
  effectiveHeat s' <> heatOf (altitude s') (speed s') 0.
Proof.
  cbv zeta. rewrite useFrame_airborne by (cbn; lra).
  cbn [altitude speed effectiveHeat].
  pose proof (density_pos 8400) as Hd.
  assert (Hv : Rmax (200 - (9.81 + density 8400 * 0.81 * 200) * 1) 200 = 200)
    by (apply Rmax_right; lra).
  rewrite Hv.
  assert (Ha : Rmax (8400 - 200 * 1) 0 = 8200)
    by (rewrite Rmax_left by lra; lra).
  rewrite Ha. repeat split.
  unfold heatOf, density, reductionFactor.
  match goal with
  | |- _ * exp ?a * _ * _ * _ <> _ * exp ?b * _ * _ * _ =>
      assert (He : exp a < exp b) by (apply exp_increasing; lra)
  end.
  intros E. lra.
Qed.

(** C10: above the ground, the effective heat published by a frame is
    [1.225 * exp(-altitude/8400) * speed^3 * (1 - magnetPower/5) * 1.2e-11]
    at the altitude and speed the frame started from, with linear and with
    quadratic drag alike; hence the heat published by the next frame is the
    heat of the altitude and speed published by this one, and there is a
    frame whose published heat is not the heat of its published altitude and
    speed. *)
Theorem C10_heat_from_pre_frame_state :
  (forall m s dt, 0 < altitude s ->
     effectiveHeat (App.useFrame true m s dt) =
       1.225 * exp (- altitude s / 8400) * speed s ^ 3 * (1 - m / 5)
       * 1.2e-11) /\
  (forall m p dt, 0 < PlasmaFluxApp.altitude p ->
     PlasmaFluxApp.effectiveHeat (PlasmaFluxApp.useFrame true m p dt) =
       1.225 * exp (- PlasmaFluxApp.altitude p / 8400)
       * PlasmaFluxApp.speed p ^ 3 * (1 - m / 5) * 1.2e-11) /\
  (forall m s dt m' dt',
     let s' := App.useFrame true m s dt in
     0 < altitude s' ->
     effectiveHeat (App.useFrame true m' s' dt') =
       heatOf (altitude s') (speed s') m') /\
  (exists m s dt,
     let s' := App.useFrame true m s dt in
     0 < altitude s /\ 0 < altitude s' /\
     effectiveHeat s' <> heatOf (altitude s') (speed s') m).
Proof.
  split; [|split; [|split]].
  - intros m s dt Ha. rewrite useFrame_airborne by exact Ha. reflexivity.
  - intros m p dt Ha. rewrite plasmaFlux_useFrame_airborne by exact Ha.
    reflexivity.
  - intros m s dt m' dt' s' Ha. rewrite useFrame_airborne by exact Ha.
    reflexivity.
  - exists 0, (mkState 8400 200 0), 1.
    destruct heat_lags_at_8400 as [Ha [_ [_ Hne]]].
    cbv zeta in *. split; [cbn; lra|]. split; [rewrite Ha; lra | exact Hne].
Qed.

Lemma C10_witness :
  effectiveHeat (App.useFrame true 0 App.initialState 1) =
    1.225 * exp (- 120000 / 8400) * 7222.22 ^ 3 * (1 - 0 / 5) * 1.2e-11.
Proof.
  destruct C10_heat_from_pre_frame_state as [H _].
  apply (H 0 App.initialState 1). cbn. lra.
Defined.

End Integrator.

(** ** The heat field and its colour ramp *)

Section HeatField.

Lemma fdiv_defined a b : b <> 0 -> fdiv a b = Some (a / b).
Proof.
  intros Hb. unfold fdiv. destruct (Req_dec_T b 0); [contradiction|reflexivity].
Qed.

Lemma fdiv_by_zero a : fdiv a 0 = None.
Proof.
  unfold fdiv. destruct (Req_dec_T 0 0) as [_|Hn]; [reflexivity|].
  exfalso. apply Hn. reflexivity.
Qed.

(** Both shaders assign the colour by the same statement. *)
Lemma sampleColor_is_color (r : RayMarchApp.Uniforms) T :
  RayMarchApp.sampleColor r T =
    App.color (App.mkUniforms (RayMarchApp.u_effectiveHeat r)
                 (RayMarchApp.baseTemp r) (RayMarchApp.plasmaThreshold r)) T.
Proof. reflexivity. Qed.

Lemma color_plasma u T :
  App.plasmaThreshold u <= T -> App.color u T = Some App.plasmaColor.
Proof.
  intros H. unfold App.color.
  destruct (Rge_dec T (App.plasmaThreshold u)); [reflexivity | lra].
Qed.

Lemma color_ramp u T :
  App.baseTemp u <> App.plasmaThreshold u ->
  T < App.plasmaThreshold u ->
  App.color u T =
    Some (Vec3 ((T - App.baseTemp u) / (App.plasmaThreshold u - App.baseTemp u))
               0
               (1 - (T - App.baseTemp u)
                    / (App.plasmaThreshold u - App.baseTemp u))).
Proof.
  intros Hne H. unfold App.color.
  destruct (Rge_dec T (App.plasmaThreshold u)); [lra|].
  rewrite fdiv_defined by lra. reflexivity.
Qed.

(** Just below the threshold the ramp parameter is just below 1. *)
Lemma ramp_parameter_near_one base thr eps :
  base < thr -> 0 < eps ->
  exists dlt, 0 < dlt /\
    forall T, thr - dlt < T < thr ->
      1 - eps < (T - base) / (thr - base) < 1.
Proof.
  intros Hb He. exists (eps * (thr - base)).
  assert (Hd : 0 < thr - base) by lra.
  split; [apply Rmult_lt_0_compat; assumption|].
  intros T [Hlo Hhi]. split.
  - apply Rmult_lt_reg_r with (thr - base); [exact Hd|].
    unfold Rdiv. rewrite Rmult_assoc, Rinv_l by lra. lra.
  - apply Rmult_lt_reg_r with (thr - base); [exact Hd|].
    unfold Rdiv. rewrite Rmult_assoc, Rinv_l by lra. lra.
Qed.

Lemma color_hard_step u :
  App.baseTemp u < App.plasmaThreshold u ->
  hardStepRamp (App.color u) (App.baseTemp u) (App.plasmaThreshold u).
Proof.
  intros Hb. split; [|split].
  - intros T HT. apply color_plasma. exact HT.
  - intros T HT. apply color_ramp; lra.
  - intros eps He. apply ramp_parameter_near_one; assumption.
Qed.

(** C4: with [baseTemp < plasmaThreshold], the colour statement of both
    fragment shaders is a ramp with a hard step at [plasmaThreshold].  At or
    above the threshold the colour is the fixed plasma colour
    (128/255, 0, 128/255), which is (0.502, 0, 0.502) to three decimals;
    below it the colour is (t, 0, 1 - t) with
    t = (temperature - baseTemp) / (plasmaThreshold - baseTemp); for
    temperatures approaching the threshold from below t approaches 1, so the
    colour approaches red (1, 0, 0), which is not the plasma colour.  The
    surface shader writes this colour of the fragment's temperature, the
    ray marcher samples it at each point's temperature. *)
Theorem C4_color_ramp_hard_step (u : App.Uniforms) (r : RayMarchApp.Uniforms) :
  App.baseTemp u < App.plasmaThreshold u ->
  RayMarchApp.baseTemp r < RayMarchApp.plasmaThreshold r ->
  hardStepRamp (App.color u) (App.baseTemp u) (App.plasmaThreshold u) /\
  hardStepRamp (RayMarchApp.sampleColor r)
               (RayMarchApp.baseTemp r) (RayMarchApp.plasmaThreshold r) /\
  (forall p c, App.color u (App.temperature u p) = Some c ->
     App.main u p = Some (Vec4 c 0.8)) /\
  (forall p T, RayMarchApp.temperature r p = Some T ->
     RayMarchApp.sample r p = RayMarchApp.sampleColor r T) /\
  App.plasmaColor = Vec3 (128 / 255) 0 (128 / 255) /\
  RayMarchApp.plasmaColor = Vec3 (128 / 255) 0 (128 / 255) /\
  Rabs (128 / 255 - 0.502) < 0.0005 /\
  Vec3 (128 / 255) 0 (128 / 255) <> Vec3 1 0 0.
Proof.
  intros Hu Hr.
  split; [apply color_hard_step; exact Hu|].
  split.
  { apply (color_hard_step
             (App.mkUniforms (RayMarchApp.u_effectiveHeat r)
                (RayMarchApp.baseTemp r) (RayMarchApp.plasmaThreshold r))).
    exact Hr. }
  split; [intros p c Hc; unfold App.main; rewrite Hc; reflexivity|].
  split; [intros p T HT; unfold RayMarchApp.sample; rewrite HT; reflexivity|].
  split; [reflexivity|]. split; [reflexivity|]. split.
  - unfold Rabs. destruct (Rcase_abs (128 / 255 - 0.502)); lra.
  - intros E. injection E as E. lra.
Qed.

Lemma C4_witness :
  App.color App.defaultUniforms 3000 = Some (Vec3 (128 / 255) 0 (128 / 255)) /\
  RayMarchApp.sampleColor RayMarchApp.defaultUniforms 1650 =
    Some (Vec3 (rampParameter 300 3000 1650) 0
               (1 - rampParameter 300 3000 1650)).
Proof.
  destruct (C4_color_ramp_hard_step App.defaultUniforms
              RayMarchApp.defaultUniforms) as [[Hp _] [[_ [Hr _]] _]];
    [cbn; lra | cbn; lra |].
  split.
  - apply Hp. cbn. lra.
  - apply Hr. cbn. lra.
Defined.

Lemma temperature_without_heat u p :
  App.u_effectiveHeat u = 0 -> App.temperature u p = App.baseTemp u.
Proof. intros H. unfold App.temperature. rewrite H. lra. Qed.

Lemma raymarch_temperature_without_heat r p :
  RayMarchApp.u_effectiveHeat r = 0 ->
  RayMarchApp.hDecayScale r <> 0 -> RayMarchApp.vDecayScale r <> 0 ->
  RayMarchApp.temperature r p = Some (RayMarchApp.baseTemp r).
Proof.
  intros H Hh Hv. unfold RayMarchApp.temperature.
  rewrite !fdiv_defined by assumption. cbn [bind]. rewrite H.
  f_equal. lra.
Qed.

Lemma color_at_baseTemp u :
  App.baseTemp u < App.plasmaThreshold u ->
  App.color u (App.baseTemp u) = Some (Vec3 0 0 1).
Proof.
  intros Hb. rewrite color_ramp by lra. f_equal.
  f_equal; unfold Rdiv; rewrite Rminus_diag, Rmult_0_l; lra.
Qed.

Lemma sample_without_heat r p :
  RayMarchApp.u_effectiveHeat r = 0 ->
  RayMarchApp.baseTemp r < RayMarchApp.plasmaThreshold r ->
  RayMarchApp.hDecayScale r <> 0 -> RayMarchApp.vDecayScale r <> 0 ->
  RayMarchApp.sample r p = Some (Vec3 0 0 1).
Proof.
  intros Hr Hb Hh Hv. unfold RayMarchApp.sample.
  rewrite raymarch_temperature_without_heat by assumption.
  cbn [bind]. rewrite sampleColor_is_color.
  apply (color_at_baseTemp
           (App.mkUniforms (RayMarchApp.u_effectiveHeat r)
              (RayMarchApp.baseTemp r) (RayMarchApp.plasmaThreshold r))).
  exact Hb.
Qed.

(** C7: with [effectiveHeat = 0] (and the ramp non-degenerate,
    [baseTemp < plasmaThreshold], the decay scales non-zero), at every point
    the temperature is [baseTemp], the ramp parameter is 0 and the colour is
    pure blue (0, 0, 1), which is not the plasma colour: in the surface
    shader of src/App.js, whose fragment is (0, 0, 1) with alpha 0.8, and at
    every sample of the ray-marching shader. *)
Theorem C7_no_heat_is_pure_blue (u : App.Uniforms) (r : RayMarchApp.Uniforms) :
  App.u_effectiveHeat u = 0 -> App.baseTemp u < App.plasmaThreshold u ->
  RayMarchApp.u_effectiveHeat r = 0 ->
  RayMarchApp.baseTemp r < RayMarchApp.plasmaThreshold r ->
  RayMarchApp.hDecayScale r <> 0 -> RayMarchApp.vDecayScale r <> 0 ->
  (forall p,
     App.temperature u p = App.baseTemp u /\
     App.color u (App.temperature u p) = Some (Vec3 0 0 1) /\
     App.main u p = Some (Vec4 (Vec3 0 0 1) 0.8)) /\
  (forall p,
     RayMarchApp.temperature r p = Some (RayMarchApp.baseTemp r) /\
     RayMarchApp.sample r p = Some (Vec3 0 0 1)) /\
  Vec3 0 0 1 <> App.plasmaColor /\ Vec3 0 0 1 <> RayMarchApp.plasmaColor.
Proof.
  intros Hu Hb Hr Hb' Hh Hv.
  split; [|split; [|split]].
  - intros p. rewrite temperature_without_heat by exact Hu.
    split; [reflexivity|]. split; [apply color_at_baseTemp; exact Hb|].
    unfold App.main. rewrite temperature_without_heat by exact Hu.
    rewrite color_at_baseTemp by exact Hb. reflexivity.
  - intros p. split.
    + apply raymarch_temperature_without_heat; assumption.
    + apply sample_without_heat; assumption.
  - intros E. injection E as E1 E2. lra.
  - intros E. injection E as E1 E2. lra.
Qed.

Lemma C7_witness :
  App.main App.defaultUniforms (Vec3 1 2 3) = Some (Vec4 (Vec3 0 0 1) 0.8) /\
  RayMarchApp.sample RayMarchApp.defaultUniforms (Vec3 1 2 3) =
    Some (Vec3 0 0 1).
Proof.
  destruct (C7_no_heat_is_pure_blue App.defaultUniforms
              RayMarchApp.defaultUniforms) as [Ha [Hr _]];
    try (cbn; lra).
  split.
  - apply Ha.
  - apply Hr.
Defined.

End HeatField.

(** ** The ray marcher *)

Section RayMarcher.

Import RayMarchApp.

(** *** Per-channel maximum *)

Lemma Rmax_idem a : Rmax a a = a.
Proof. apply Rmax_left. lra. Qed.

Lemma vmax_comm a b : vmax a b = vmax b a.
Proof. unfold vmax. f_equal; apply Rmax_comm. Qed.

Lemma vmax_assoc a b c : vmax a (vmax b c) = vmax (vmax a b) c.
Proof. unfold vmax. cbn. f_equal; apply Rmax_assoc. Qed.

Lemma vmax_idem a : vmax a a = a.
Proof. destruct a. unfold vmax. cbn. f_equal; apply Rmax_idem. Qed.

Lemma vmax_black c : nonnegColor c -> vmax (Vec3 0 0 0) c = c.
Proof.
  intros [Hx [Hy Hz]]. destruct c as [cx cy cz]. unfold vmax. cbn in *.
  f_equal; apply Rmax_right; assumption.
Qed.

Lemma fold_vmax_perm l l' :
  Permutation l l' -> forall a, fold_left vmax l a = fold_left vmax l' a.
Proof.
  induction 1 as [|x l l' _ IH|x y l|l l' l'' _ IH1 _ IH2]; intros a; cbn.
  - reflexivity.
  - apply IH.
  - f_equal. rewrite <- !vmax_assoc. f_equal. apply vmax_comm.
  - rewrite IH1. apply IH2.
Qed.

Lemma fold_vmax_absorb x l :
  In x l -> forall a, fold_left vmax l (vmax a x) = fold_left vmax l a.
Proof.
  induction l as [|y l IH]; intros Hin a; [destruct Hin|].
  destruct Hin as [->|Hin]; cbn.
  - rewrite <- vmax_assoc, vmax_idem. reflexivity.
  - rewrite <- vmax_assoc, (vmax_comm x y), vmax_assoc. apply IH. exact Hin.
Qed.

Lemma channelMaxOf_perm l l' :
  Permutation l l' -> channelMaxOf l = channelMaxOf l'.
Proof.
  intros HP. destruct l as [|h t].
  - apply Permutation_nil in HP. subst l'. reflexivity.
  - destruct l' as [|h' t'].
    + apply Permutation_sym, Permutation_nil in HP. discriminate HP.
    + cbn. f_equal.
      assert (Hh : fold_left vmax t h = fold_left vmax (h :: t) (vmax h h')).
      { rewrite fold_vmax_absorb.
        - cbn. rewrite vmax_idem. reflexivity.
        - apply Permutation_in with (h' :: t');
            [apply Permutation_sym; exact HP | left; reflexivity]. }
      assert (Hh' : fold_left vmax t' h'
                    = fold_left vmax (h :: t) (vmax h' h)).
      { rewrite fold_vmax_absorb by (left; reflexivity).
        rewrite (fold_vmax_perm _ _ HP). cbn. rewrite vmax_idem.
        reflexivity. }
      rewrite Hh, Hh', (vmax_comm h h'). reflexivity.
Qed.

(** *** The ray direction *)

Lemma sum_squares_zero a b c : a * a + b * b + c * c = 0 -> a = 0 /\ b = 0 /\ c = 0.
Proof. intros H. repeat split; nra. Qed.

Lemma length3_zero v : length3 v = 0 <-> v = Vec3 0 0 0.
Proof.
  destruct v as [a b c]. unfold length3. cbn. split.
  - intros H. apply sqrt_eq_0 in H; [|nra].
    apply sum_squares_zero in H. destruct H as [-> [-> ->]]. reflexivity.
  - intros E. injection E as -> -> ->.
    replace (0 * 0 + 0 * 0 + 0 * 0) with 0 by lra. apply sqrt_0.
Qed.

Lemma vsub_zero p o : vsub p o = Vec3 0 0 0 <-> p = o.
Proof.
  destruct p as [a b c], o as [a' b' c']. unfold vsub. cbn. split.
  - intros E. injection E as E1 E2 E3. f_equal; lra.
  - intros E. injection E as -> -> ->. f_equal; lra.
Qed.

Lemma normalize_defined v :
  length3 v <> 0 ->
  normalize v =
    Some (Vec3 (vx v / length3 v) (vy v / length3 v) (vz v / length3 v)).
Proof.
  intros H. unfold normalize. rewrite !fdiv_defined by exact H. reflexivity.
Qed.

Lemma normalize_zero_length v : length3 v = 0 -> normalize v = None.
Proof.
  intros H. unfold normalize. rewrite H, fdiv_by_zero. reflexivity.
Qed.

Lemma normalize_some v d : normalize v = Some d -> length3 v <> 0.
Proof.
  intros H E. rewrite normalize_zero_length in H by exact E. discriminate H.
Qed.

Lemma normalize_unit v d : normalize v = Some d -> length3 d = 1.
Proof.
  intros H. pose proof (normalize_some _ _ H) as Hl.
  rewrite normalize_defined in H by exact Hl. injection H as <-.
  destruct v as [a b c]. unfold length3 in *. cbn in *.
  set (q := a * a + b * b + c * c) in *.
  assert (Hq : 0 <= q) by (unfold q; nra).
  assert (Hs : sqrt q * sqrt q = q) by (apply sqrt_sqrt; exact Hq).
  replace (a / sqrt q * (a / sqrt q) + b / sqrt q * (b / sqrt q)
           + c / sqrt q * (c / sqrt q))
    with (q / (sqrt q * sqrt q)) by (unfold q; field; exact Hl).
  rewrite Hs. unfold Rdiv. rewrite Rinv_r; [apply sqrt_1|].
  intros E. apply Hl. rewrite E. apply sqrt_0.
Qed.

(** *** Extended reals *)

Lemma xmin_finite a b : xmin (Finite a) (Finite b) = Finite (Rmin a b).
Proof.
  unfold xmin, Rmin. destruct (xlt_dec (Finite b) (Finite a)) as [H|H];
    cbn in H; destruct (Rle_dec a b); try reflexivity; lra.
Qed.

Lemma xmax_finite a b : xmax (Finite a) (Finite b) = Finite (Rmax a b).
Proof.
  unfold xmax, Rmax. destruct (xlt_dec (Finite a) (Finite b)) as [H|H];
    cbn in H; destruct (Rle_dec a b); try reflexivity; try lra.
  f_equal. lra.
Qed.

Lemma xmax_ne_neginf x y : x <> NegInf \/ y <> NegInf -> xmax x y <> NegInf.
Proof.
  unfold xmax. destruct (xlt_dec x y) as [H|H]; xcases; intuition congruence.
Qed.

Lemma xmin_ne_posinf x y : x <> PosInf \/ y <> PosInf -> xmin x y <> PosInf.
Proof.
  unfold xmin. destruct (xlt_dec y x) as [H|H]; xcases; intuition congruence.
Qed.

Lemma xinv_nonzero d : d <> 0 -> xinv d = Finite (1 / d).
Proof.
  intros H. unfold xinv. destruct (Req_dec_T d 0); [contradiction|reflexivity].
Qed.

(** *** The slab stage *)

(** On an axis along which the ray moves, both slab parameters are real. *)
Lemma slab_axis_finite a d t :
  d <> 0 -> xmul a (xinv d) = Some t -> exists r, t = Finite r.
Proof.
  intros Hd H. rewrite xinv_nonzero in H by exact Hd. cbn in H.
  injection H as <-. eexists. reflexivity.
Qed.

Lemma unit_has_nonzero_component d :
  length3 d = 1 -> vx d <> 0 \/ vy d <> 0 \/ vz d <> 0.
Proof.
  intros H.
  destruct (Req_dec_T (vx d) 0) as [Ex|]; [|left; assumption].
  destruct (Req_dec_T (vy d) 0) as [Ey|]; [|right; left; assumption].
  destruct (Req_dec_T (vz d) 0) as [Ez|]; [|right; right; assumption].
  exfalso. assert (E : d = Vec3 0 0 0) by (destruct d; cbn in *; subst; reflexivity).
  apply length3_zero in E. lra.
Qed.

(** For a ray direction that has a non-zero component, [tmin] is not the
    negative infinity and [tmax] is not the positive one. *)
Lemma slabs_bounds u d tmin tmax :
  vx d <> 0 \/ vy d <> 0 \/ vz d <> 0 ->
  slabs u d = Some (tmin, tmax) ->
  tmin <> NegInf /\ tmax <> PosInf.
Proof.
  intros Hd H. unfold slabs, xvmul, xvinv in H. cbn [xx xy xz] in H.
  set (A := vsub (vneg (boxHalfSize u)) (rayOrigin u)) in H.
  set (B := vsub (boxHalfSize u) (rayOrigin u)) in H.
  destruct (xmul (vx A) (xinv (vx d))) as [t0x|] eqn:E0x;
    [|cbn in H; discriminate H].
  destruct (xmul (vy A) (xinv (vy d))) as [t0y|] eqn:E0y;
    [|cbn in H; discriminate H].
  destruct (xmul (vz A) (xinv (vz d))) as [t0z|] eqn:E0z;
    [|cbn in H; discriminate H].
  destruct (xmul (vx B) (xinv (vx d))) as [t1x|] eqn:E1x;
    [|cbn in H; discriminate H].
  destruct (xmul (vy B) (xinv (vy d))) as [t1y|] eqn:E1y;
    [|cbn in H; discriminate H].
  destruct (xmul (vz B) (xinv (vz d))) as [t1z|] eqn:E1z;
    [|cbn in H; discriminate H].
  cbn in H. injection H as <- <-.
  destruct Hd as [Hx|[Hy|Hz]].
  - destruct (slab_axis_finite _ _ _ Hx E0x) as [r0 ->].
    destruct (slab_axis_finite _ _ _ Hx E1x) as [r1 ->].
    rewrite xmin_finite, xmax_finite. split.
    + apply xmax_ne_neginf. left. apply xmax_ne_neginf. left. discriminate.
    + apply xmin_ne_posinf. left. apply xmin_ne_posinf. left. discriminate.
  - destruct (slab_axis_finite _ _ _ Hy E0y) as [r0 ->].
    destruct (slab_axis_finite _ _ _ Hy E1y) as [r1 ->].
    rewrite xmin_finite, xmax_finite. split.
    + apply xmax_ne_neginf. left. apply xmax_ne_neginf. right. discriminate.
    + apply xmin_ne_posinf. left. apply xmin_ne_posinf. right. discriminate.
  - destruct (slab_axis_finite _ _ _ Hz E0z) as [r0 ->].
    destruct (slab_axis_finite _ _ _ Hz E1z) as [r1 ->].
    rewrite xmin_finite, xmax_finite. split.
    + apply xmax_ne_neginf. right. discriminate.
    + apply xmin_ne_posinf. right. discriminate.
Qed.

(** A normalized ray that is not discarded has a real march interval: the
    last branch of [main] is never taken. *)
Lemma slabs_finite u v rayDir a b :
  normalize v = Some rayDir ->
  slabs u rayDir = Some (a, b) ->
  ~ xlt b (Finite 0) -> ~ xlt b a ->
  exists tmin tmax,
    a = Finite tmin /\ b = Finite tmax /\ 0 <= tmax /\ tmin <= tmax.
Proof.
  intros Hn Hs H0 Hab.
  apply normalize_unit, unit_has_nonzero_component in Hn.
  destruct (slabs_bounds _ _ _ _ Hn Hs) as [Ha Hb].
  destruct a as [ra| |], b as [rb| |]; cbn in *; try tauto; try congruence.
  exists ra, rb. repeat split; lra.
Qed.

(** In a direction with no zero component the slab stage stays in the
    reals. *)
Lemma slabs_regular u d :
  vx d <> 0 -> vy d <> 0 -> vz d <> 0 ->
  let invDir := Vec3 (1 / vx d) (1 / vy d) (1 / vz d) in
  let t0s := vmul (vsub (vneg (boxHalfSize u)) (rayOrigin u)) invDir in
  let t1s := vmul (vsub (boxHalfSize u) (rayOrigin u)) invDir in
  slabs u d =
    Some (Finite (Rmax (Rmax (vx (vmin t0s t1s)) (vy (vmin t0s t1s)))
                       (vz (vmin t0s t1s))),
          Finite (Rmin (Rmin (vx (vmax t0s t1s)) (vy (vmax t0s t1s)))
                       (vz (vmax t0s t1s)))).
Proof.
  intros Hx Hy Hz. unfold slabs, xvmul, xvinv. cbn [xx xy xz].
  rewrite !xinv_nonzero by assumption. cbn.
  repeat first [rewrite xmin_finite | rewrite xmax_finite]. reflexivity.
Qed.

(** *** Two concrete rays *)

(** The direction (3, 4, 12) / 13. *)
Lemma normalize_3_4_12 :
  normalize (Vec3 3 4 12) = Some (Vec3 (3 / 13) (4 / 13) (12 / 13)).
Proof.
  assert (Hl : length3 (Vec3 3 4 12) = 13).
  { unfold length3. cbn.
    replace (3 * 3 + 4 * 4 + 12 * 12) with (13 * 13) by lra.
    apply sqrt_square. lra. }
  rewrite normalize_defined by (rewrite Hl; lra).
  rewrite Hl. reflexivity.
Qed.

(** The ray from the centre of the box along (3, 4, 12): it leaves through
    the top face, 16.25 m away. *)
Lemma slabs_oblique_from_centre :
  slabs defaultUniforms (Vec3 (3 / 13) (4 / 13) (12 / 13))
  = Some (Finite (-5 * (1 / (4 / 13))), Finite (5 * (1 / (4 / 13)))).
Proof.
  rewrite slabs_regular by (cbn; lra).
  cbv zeta. unfold vmul, vsub, vneg, vmin, vmax. cbn.
  eval_minmax. f_equal. f_equal; f_equal; lra.
Qed.

(** The direction straight up. *)
Lemma normalize_0_5_0 :
  normalize (Vec3 0 5 0) = Some (Vec3 (0 / 5) (5 / 5) (0 / 5)).
Proof.
  assert (Hl : length3 (Vec3 0 5 0) = 5).
  { unfold length3. cbn.
    replace (0 * 0 + 5 * 5 + 0 * 0) with (5 * 5) by lra.
    apply sqrt_square. lra. }
  rewrite normalize_defined by (rewrite Hl; lra).
  rewrite Hl. reflexivity.
Qed.

(** A vertical ray that passes 10 m beside the box: on the x axis both slab
    parameters are the negative infinity. *)
Lemma slabs_vertical_beside_box :
  slabs (mkUniforms 0 300 3000 3 5 (Vec3 60 (-100) 0) (Vec3 50 5 50))
        (Vec3 (0 / 5) (5 / 5) (0 / 5))
  = Some (Finite ((-5 - -100) * (1 / (5 / 5))), NegInf).
Proof.
  unfold slabs, xvmul, xvinv, xinv, xvmin, xvmax, xmin, xmax, vsub, vneg.
  cbn [vx vy vz boxHalfSize rayOrigin].
  decide_reals. reflexivity.
Qed.

(** A vertical ray through the centre of the box, from 100 m below: the x
    and z axes do not constrain it. *)
Lemma slabs_vertical_through_box :
  slabs (mkUniforms 0 300 3000 3 5 (Vec3 0 (-100) 0) (Vec3 50 5 50))
        (Vec3 (0 / 5) (5 / 5) (0 / 5))
  = Some (Finite ((-5 - -100) * (1 / (5 / 5))),
          Finite ((5 - -100) * (1 / (5 / 5)))).
Proof.
  unfold slabs, xvmul, xvinv, xinv, xvmin, xvmax, xmin, xmax, vsub, vneg.
  cbn [vx vy vz boxHalfSize rayOrigin].
  decide_reals. reflexivity.
Qed.

(** *** The ray direction is not guarded *)

(** C6, as the code has it: the shader normalizes [vPosition - rayOrigin]
    with no guard.  The direction is defined exactly when [vPosition] differs
    from [rayOrigin], and then it has length 1; when the two coincide the
    direction is unspecified, and with it the fragment. *)
Theorem C6_direction_defined_iff_nonzero (u : Uniforms) (vPosition : vec3) :
  (vPosition <> rayOrigin u <->
   exists rayDir, normalize (vsub vPosition (rayOrigin u)) = Some rayDir) /\
  (forall rayDir,
     normalize (vsub vPosition (rayOrigin u)) = Some rayDir ->
     length3 rayDir = 1) /\
  (vPosition = rayOrigin u -> main u vPosition = None).
Proof.
  split; [|split].
  - split.
    + intros Hne. eexists. apply normalize_defined.
      intros E. apply -> length3_zero in E. apply -> vsub_zero in E.
      contradiction.
    + intros [d Hd] E. apply normalize_some in Hd. apply Hd.
      apply length3_zero, vsub_zero. exact E.
  - intros d Hd. apply normalize_unit with (1 := Hd).
  - intros E. unfold main. rewrite normalize_zero_length; [reflexivity|].
    apply length3_zero, vsub_zero. exact E.
Qed.

Lemma C6_witness :
  exists rayDir,
    normalize (vsub (Vec3 0 (-95) 0) (Vec3 0 (-100) 0)) = Some rayDir /\
    length3 rayDir = 1.
Proof.
  destruct (C6_direction_defined_iff_nonzero
              (mkUniforms 0 300 3000 3 5 (Vec3 0 (-100) 0) (Vec3 50 5 50))
              (Vec3 0 (-95) 0)) as [[Hdef _] [Hunit _]].
  destruct Hdef as [d Hd].
  - cbn. intros E. injection E as E. lra.
  - exists d. split; [exact Hd | apply Hunit; exact Hd].
Defined.

(** C6 fails on the code: with the camera on the face [x = 50] of the mesh,
    for the fragment at the camera position the direction has length 0,
    nothing guards the normalization, and the result of the shader is
    unspecified. *)
Lemma C6_no_guard_at_ray_origin :
  let u := mkUniforms 0 300 3000 3 5 (Vec3 50 0 0) (Vec3 50 5 50) in
  let vPosition := Vec3 50 0 0 in
  length3 (vsub vPosition (rayOrigin u)) = 0 /\
  normalize (vsub vPosition (rayOrigin u)) = None /\
  main u vPosition = None.
Proof.
  cbv zeta.
  assert (H : length3 (vsub (Vec3 50 0 0) (Vec3 50 0 0)) = 0)
    by (apply length3_zero, vsub_zero; reflexivity).
  split; [exact H|]. split.
  - apply normalize_zero_length. exact H.
  - unfold main. cbn [rayOrigin]. rewrite normalize_zero_length by exact H.
    reflexivity.
Qed.

(** *** Rays that miss the box *)

(** C5: when the slab method yields an empty interval ([tmax < 0] or
    [tmin > tmax]) the fragment is discarded, and the heat field has been
    evaluated at no point. *)
Theorem C5_empty_interval_discards (u : Uniforms) (vPosition rayDir : vec3)
    (tmin tmax : xreal) :
  normalize (vsub vPosition (rayOrigin u)) = Some rayDir ->
  slabs u rayDir = Some (tmin, tmax) ->
  xlt tmax (Finite 0) \/ xlt tmax tmin ->
  main u vPosition = Some (Discard, []).
Proof.
  intros Hn Hs Hempty. unfold main. rewrite Hn. cbn [bind].
  rewrite Hs. cbn [bind fst snd].
  destruct (xlt_dec tmax (Finite 0)) as [|Hge]; [reflexivity|].
  destruct (xlt_dec tmax tmin) as [|Hle]; [reflexivity|].
  destruct Hempty; contradiction.
Qed.

(** The vertical ray beside the box is discarded. *)
Lemma C5_witness :
  main (mkUniforms 0 300 3000 3 5 (Vec3 60 (-100) 0) (Vec3 50 5 50))
       (Vec3 60 (-95) 0) = Some (Discard, []).
Proof.
  eapply C5_empty_interval_discards.
  - replace (vsub (Vec3 60 (-95) 0) _) with (Vec3 0 5 0)
      by (unfold vsub; cbn; f_equal; lra).
    apply normalize_0_5_0.
  - apply slabs_vertical_beside_box.
  - left. exact I.
Defined.

(** *** The march *)

Lemma INR_200 : INR 200 = 200.
Proof. rewrite INR_IZR_INZ. reflexivity. Qed.

Section March.

(** The uniforms as the program sets them: the heat is not negative, the
    ramp rises and the decay scales are not zero. *)
Variable u : Uniforms.
Hypothesis Hheat : 0 <= u_effectiveHeat u.
Hypothesis Hb : baseTemp u < plasmaThreshold u.
Hypothesis Hh : hDecayScale u <> 0.
Hypothesis Hv : vDecayScale u <> 0.

(** Every sample is defined and has no negative channel. *)
Lemma sample_defined p :
  exists c, sample u p = Some c /\ nonnegColor c.
Proof.
  unfold sample, temperature.
  rewrite !fdiv_defined by assumption. cbn [bind].
  set (hf := exp (- length_xz p / hDecayScale u)).
  set (vf := exp (- ((vy p + 5) / vDecayScale u))).
  assert (Hhf : 0 < hf) by apply exp_pos.
  assert (Hvf : 0 < vf) by apply exp_pos.
  assert (Hl : 0 <= u_effectiveHeat u * hf * vf).
  { apply Rmult_le_pos; [apply Rmult_le_pos|]; lra. }
  set (T := baseTemp u + u_effectiveHeat u * hf * vf * 1e6).
  assert (HT : baseTemp u <= T) by (unfold T; lra).
  unfold sampleColor. destruct (Rge_dec T (plasmaThreshold u)) as [Hge|Hlt].
  - exists plasmaColor. split; [reflexivity|].
    unfold nonnegColor, plasmaColor. cbn. lra.
  - rewrite fdiv_defined by lra. cbn [bind]. eexists. split; [reflexivity|].
    assert (Hd : 0 < plasmaThreshold u - baseTemp u) by lra.
    assert (H0 : 0 <= (T - baseTemp u) / (plasmaThreshold u - baseTemp u)).
    { apply Rmult_le_pos; [lra|]. left. apply Rinv_0_lt_compat. exact Hd. }
    assert (H1 : (T - baseTemp u) / (plasmaThreshold u - baseTemp u) < 1).
    { apply Rmult_lt_reg_r with (plasmaThreshold u - baseTemp u); [exact Hd|].
      unfold Rdiv. rewrite Rmult_assoc, Rinv_l by lra. lra. }
    unfold nonnegColor. cbn. lra.
Qed.

(** The loop, when every sample is defined: it folds [vmax] over the colours
    sampled at the points of indices [i], ..., [i + n - 1], in that order. *)
Lemma march_fold rayDir tmin dt (P : vec3 -> Prop) :
  (forall p, exists c, sample u p = Some c /\ P c) ->
  forall n i maxColor visited,
  exists colors,
    map (sample u) (map (samplePos u rayDir tmin dt) (seq i n))
      = map Some colors /\
    Forall P colors /\
    march u rayDir tmin dt n i maxColor visited =
      Some (fold_left vmax colors maxColor,
            visited ++ map (samplePos u rayDir tmin dt) (seq i n)).
Proof.
  intros Hs. induction n as [|n IH]; intros i maxColor visited.
  - exists []. cbn. rewrite app_nil_r. repeat split. constructor.
  - destruct (Hs (samplePos u rayDir tmin dt i)) as [c [Hc HP]].
    destruct (IH (S i) (vmax maxColor c)
                 (visited ++ [samplePos u rayDir tmin dt i]))
      as [cs [Hmap [HF Hm]]].
    exists (c :: cs). cbn [seq map march fold_left]. split; [|split].
    + rewrite Hc, Hmap. reflexivity.
    + constructor; assumption.
    + rewrite Hc. cbn [bind]. rewrite Hm, <- app_assoc. reflexivity.
Qed.

(** The march over a real interval. *)
Lemma march_channel_max (vPosition rayDir : vec3) (tmin tmax : R) :
  normalize (vsub vPosition (rayOrigin u)) = Some rayDir ->
  slabs u rayDir = Some (Finite tmin, Finite tmax) ->
  0 <= tmax -> tmin <= tmax ->
  let dt := (tmax - tmin) / 200 in
  let points := map (samplePos u rayDir tmin dt) (seq 0 200) in
  exists colors m,
    length points = 200%nat /\
    (forall i, (i < 200)%nat -> tmin <= tmin + dt * INR i <= tmax) /\
    map (sample u) points = map Some colors /\
    channelMaxOf colors = Some m /\
    main u vPosition = Some (FragColor (Vec4 m 0.4), points) /\
    (forall colors', Permutation colors colors' ->
       channelMaxOf colors' = Some m /\
       fold_left vmax colors' (Vec3 0 0 0) = m).
Proof.
  intros Hn Hs Htmax Hle dt points.
  destruct (march_fold rayDir tmin dt nonnegColor sample_defined
              200%nat 0%nat (Vec3 0 0 0) [])
    as [colors [Hmap [HF Hm]]].
  fold points in Hmap, Hm.
  assert (Hlen : length points = 200%nat).
  { unfold points. rewrite length_map, length_seq. reflexivity. }
  destruct colors as [|c0 rest].
  { apply (f_equal (@length _)) in Hmap.
    rewrite !length_map in Hmap. rewrite Hlen in Hmap. discriminate Hmap. }
  exists (c0 :: rest), (fold_left vmax rest c0).
  split; [exact Hlen|]. split; [|split; [exact Hmap|]].
  - intros i Hi. assert (Hdt : 0 <= dt) by (unfold dt; lra).
    assert (Hi0 : 0 <= INR i) by apply pos_INR.
    assert (Hi1 : INR i <= 200).
    { rewrite <- INR_200. apply le_INR. lia. }
    assert (H200 : dt * 200 = tmax - tmin) by (unfold dt; field).
    split; nra.
  - split; [reflexivity|]. split.
    + unfold main. rewrite Hn. cbn [bind]. rewrite Hs. cbn [bind fst snd].
      destruct (xlt_dec (Finite tmax) (Finite 0)) as [Hlt|_];
        [cbn in Hlt; lra|].
      destruct (xlt_dec (Finite tmax) (Finite tmin)) as [Hgt|_];
        [cbn in Hgt; lra|].
      unfold steps. rewrite INR_200. fold dt. rewrite Hm. cbn [bind fst snd].
      cbn [fold_left app]. rewrite vmax_black; [reflexivity|].
      inversion HF; assumption.
    + intros colors' HP. split.
      * rewrite <- (channelMaxOf_perm _ _ HP). reflexivity.
      * rewrite <- (fold_vmax_perm _ _ HP). cbn [fold_left].
        rewrite vmax_black; [reflexivity|]. inversion HF; assumption.
Qed.

End March.

(** *** Where the march samples, and what it keeps *)

Lemma length3_vscale v k : 0 <= k -> length3 (vscale v k) = k * length3 v.
Proof.
  intros Hk. destruct v as [a b c]. unfold length3, vscale. cbn.
  replace (a * k * (a * k) + b * k * (b * k) + c * k * (c * k))
    with (k * k * (a * a + b * b + c * c)) by ring.
  rewrite sqrt_mult; [|nra|nra]. rewrite sqrt_square by exact Hk.
  reflexivity.
Qed.

Lemma fold_vmax_closed (Q : vec3 -> Prop) :
  (forall a b, Q a -> Q b -> Q (vmax a b)) ->
  forall cs a, Q a -> Forall Q cs -> Q (fold_left vmax cs a).
Proof.
  intros Hmax. induction cs as [|c cs IH]; intros a Ha HF; [exact Ha|].
  inversion HF; subst. cbn. apply IH; [apply Hmax|]; assumption.
Qed.

Lemma fold_vmax_upper cs :
  forall a c, In c (a :: cs) -> vle c (fold_left vmax cs a).
Proof.
  induction cs as [|c1 cs IH]; intros a c Hc.
  - destruct Hc as [<-|[]]. unfold vle. cbn. lra.
  - assert (Hm : vle (vmax a c1) (fold_left vmax cs (vmax a c1))).
    { apply IH. left. reflexivity. }
    cbn [fold_left]. destruct Hc as [<-|[<-|Hc]].
    + unfold vle, vmax in *. cbn [vx vy vz] in *.
      pose proof (Rmax_l (vx a) (vx c1)). pose proof (Rmax_l (vy a) (vy c1)).
      pose proof (Rmax_l (vz a) (vz c1)). lra.
    + unfold vle, vmax in *. cbn [vx vy vz] in *.
      pose proof (Rmax_r (vx a) (vx c1)). pose proof (Rmax_r (vy a) (vy c1)).
      pose proof (Rmax_r (vz a) (vz c1)). lra.
    + apply IH. right. exact Hc.
Qed.

Lemma fold_vmax_attained (proj : vec3 -> R) :
  (forall a b, proj (vmax a b) = Rmax (proj a) (proj b)) ->
  forall cs a, exists c, In c (a :: cs) /\ proj c = proj (fold_left vmax cs a).
Proof.
  intros Hproj. induction cs as [|c1 cs IH]; intros a.
  - exists a. split; [left|]; reflexivity.
  - cbn [fold_left]. destruct (IH (vmax a c1)) as [c [[<-|Hc] E]].
    + rewrite Hproj in E. destruct (Rle_dec (proj a) (proj c1)) as [L|L].
      * rewrite Rmax_right in E by exact L.
        exists c1. split; [right; left; reflexivity | exact E].
      * rewrite Rmax_left in E by lra.
        exists a. split; [left; reflexivity | exact E].
    + exists c. split; [right; right; exact Hc | exact E].
Qed.

(** What the loop leaves in [maxColor]: the per-channel maximum of the
    colour it starts from and the colours it meets. *)
Lemma fold_vmax_isChannelMax a cs :
  isChannelMax (a :: cs) (fold_left vmax cs a).
Proof.
  split; [|split; [|split]].
  - intros c Hc. apply fold_vmax_upper. exact Hc.
  - apply (fold_vmax_attained vx). reflexivity.
  - apply (fold_vmax_attained vy). reflexivity.
  - apply (fold_vmax_attained vz). reflexivity.
Qed.

(** With non-degenerate uniforms every sample is defined, whatever the sign
    of the heat. *)
Lemma sample_total u p :
  baseTemp u < plasmaThreshold u ->
  hDecayScale u <> 0 -> vDecayScale u <> 0 ->
  exists c, sample u p = Some c /\ True.
Proof.
  intros Hb Hh Hv. unfold sample, temperature.
  rewrite !fdiv_defined by assumption. cbn [bind]. unfold sampleColor.
  destruct (Rge_dec _ _); [eexists; split; [reflexivity | exact I]|].
  rewrite fdiv_defined by lra. eexists. split; [reflexivity | exact I].
Qed.

(** A property of every value of [f] holds of the colours sampled. *)
Lemma sampled_forall (f : vec3 -> option vec3) (P : vec3 -> Prop) ps :
  forall cs, map f ps = map Some cs ->
  (forall p c, In p ps -> f p = Some c -> P c) -> Forall P cs.
Proof.
  induction ps as [|p ps IH]; intros [|c cs] H HP; try discriminate H;
    constructor.
  - cbn in H. apply (HP p); [left; reflexivity|].
    injection H as H _. exact H.
  - apply IH.
    + cbn in H. injection H as _ H. exact H.
    + intros q d Hq. apply HP. right. exact Hq.
Qed.

(** With a heat that is negative every sample has a negative red channel. *)
Lemma sample_negative_heat u p c :
  u_effectiveHeat u < 0 -> baseTemp u < plasmaThreshold u ->
  sample u p = Some c -> vx c < 0.
Proof.
  intros Hheat Hb H. unfold sample, temperature, fdiv in H.
  destruct (Req_dec_T (hDecayScale u) 0) as [|Hh]; [discriminate H|].
  destruct (Req_dec_T (vDecayScale u) 0) as [|Hv]; [discriminate H|].
  cbn [bind] in H.
  set (hf := exp (- length_xz p / hDecayScale u)) in H.
  set (vf := exp (- ((vy p + 5) / vDecayScale u))) in H.
  assert (Hhf : 0 < hf) by apply exp_pos.
  assert (Hvf : 0 < vf) by apply exp_pos.
  assert (Hl : u_effectiveHeat u * hf * vf < 0).
  { assert (0 < hf * vf) by (apply Rmult_lt_0_compat; assumption). nra. }
  set (T := baseTemp u + u_effectiveHeat u * hf * vf * 1e6) in H.
  assert (HT : T < baseTemp u) by (unfold T; lra).
  unfold sampleColor in H.
  destruct (Rge_dec T (plasmaThreshold u)) as [Hge|_]; [lra|].
  rewrite fdiv_defined in H by lra. cbn [bind] in H.
  apply Some_eq in H. rewrite <- H. cbn [vx].
  assert (Hd : 0 < / (plasmaThreshold u - baseTemp u)).
  { apply Rinv_0_lt_compat. lra. }
  unfold Rdiv. nra.
Qed.

Lemma fold_vmax_negative_red cs :
  Forall (fun c => vx c < 0) cs ->
  forall a, vx (fold_left vmax cs (Vec3 0 0 0)) = 0 /\
            (vx a < 0 -> vx (fold_left vmax cs a) < 0).
Proof.
  intros HF a. split.
  - assert (G : forall b, vx b = 0 -> vx (fold_left vmax cs b) = 0).
    { induction HF as [|c cs Hc _ IH]; intros b Hb0; [exact Hb0|].
      cbn [fold_left]. apply IH. unfold vmax. cbn [vx].
      rewrite Rmax_left; lra. }
    apply G. reflexivity.
  - revert a. induction HF as [|c cs Hc _ IH]; intros a Ha; [exact Ha|].
    cbn [fold_left]. apply IH. unfold vmax. cbn [vx].
    apply Rmax_case; assumption.
Qed.

(** The ray from 100 below the centre of the box straight up, whatever the
    heat: it enters the box at [t = 95] and leaves it at [t = 105]. *)
Lemma vertical_ray heat :
  let u := mkUniforms heat 300 3000 3 5 (Vec3 0 (-100) 0) (Vec3 50 5 50) in
  normalize (vsub (Vec3 0 (-95) 0) (rayOrigin u))
    = Some (Vec3 (0 / 5) (5 / 5) (0 / 5)) /\
  slabs u (Vec3 (0 / 5) (5 / 5) (0 / 5))
    = Some (Finite ((-5 - -100) * (1 / (5 / 5))),
            Finite ((5 - -100) * (1 / (5 / 5)))).
Proof.
  intros u. split.
  - replace (vsub (Vec3 0 (-95) 0) (rayOrigin u)) with (Vec3 0 5 0)
      by (unfold vsub; cbn; f_equal; lra).
    apply normalize_0_5_0.
  - unfold slabs, xvmul, xvinv, xinv, xvmin, xvmax, xmin, xmax, vsub, vneg.
    cbn [vx vy vz boxHalfSize rayOrigin u].
    decide_reals. reflexivity.
Qed.

(** The march of a ray that meets the box, whatever the sign of the heat. *)
Lemma march_from_black (u : Uniforms) (vPosition rayDir : vec3)
    (tmin tmax : R) :
  baseTemp u < plasmaThreshold u ->
  hDecayScale u <> 0 -> vDecayScale u <> 0 ->
  normalize (vsub vPosition (rayOrigin u)) = Some rayDir ->
  slabs u rayDir = Some (Finite tmin, Finite tmax) ->
  0 <= tmax -> tmin <= tmax ->
  let dt := (tmax - tmin) / 200 in
  let points := map (samplePos u rayDir tmin dt) (seq 0 200) in
  exists colors,
    map (sample u) points = map Some colors /\
    length colors = 200%nat /\
    main u vPosition
      = Some (FragColor (Vec4 (fold_left vmax colors (Vec3 0 0 0)) 0.4),
              points).
Proof.
  intros Hb Hh Hv Hn Hs Htmax Hle dt points.
  destruct (march_fold u rayDir tmin dt (fun _ => True)
              (fun p => sample_total u p Hb Hh Hv)
              200%nat 0%nat (Vec3 0 0 0) [])
    as [colors [Hmap [_ Hm]]].
  fold points in Hmap, Hm. exists colors. split; [exact Hmap|]. split.
  - apply (f_equal (@length _)) in Hmap. rewrite !length_map in Hmap.
    rewrite <- Hmap. unfold points. rewrite length_map, length_seq.
    reflexivity.
  - unfold main. rewrite Hn. cbn [bind]. rewrite Hs. cbn [bind fst snd].
    destruct (xlt_dec (Finite tmax) (Finite 0)) as [Hlt|_];
      [cbn in Hlt; lra|].
    destruct (xlt_dec (Finite tmax) (Finite tmin)) as [Hgt|_];
      [cbn in Hgt; lra|].
    unfold steps. rewrite INR_200. fold dt. rewrite Hm. cbn [bind fst snd].
    reflexivity.
Qed.



Lemma length_xz_axis y : length_xz (Vec3 0 y 0) = 0.
Proof.
  unfold length_xz. cbn. replace (0 * 0 + 0 * 0) with 0 by lra. apply sqrt_0.
Qed.

(** The colour sampled on the axis of the volume, at height [y] above its
    bottom face, when the heat is too low for plasma. *)
Lemma axis_sample heat y :
  0 <= heat -> heat * 1e6 < 2700 -> -5 <= y ->
  sample (mkUniforms heat 300 3000 3 5 (Vec3 0 (-100) 0) (Vec3 50 5 50))
         (Vec3 0 y 0)
  = Some (Vec3 (heat * exp (- ((y + 5) / 5)) * 1e6 / 2700) 0
               (1 - heat * exp (- ((y + 5) / 5)) * 1e6 / 2700)).
Proof.
  intros Hheat Hlow Hy. unfold sample, temperature.
  cbn [hDecayScale vDecayScale u_effectiveHeat baseTemp plasmaThreshold vy].
  rewrite !fdiv_defined by lra. cbn [bind]. rewrite length_xz_axis.
  replace (- 0 / 3) with 0 by lra. rewrite exp_0.
  set (vf := exp (- ((y + 5) / 5))).
  assert (Hvf : 0 < vf <= 1).
  { split; [apply exp_pos|]. rewrite <- exp_0. unfold vf.
    destruct (Req_dec (- ((y + 5) / 5)) 0) as [E|N].
    - rewrite E. lra.
    - left. apply exp_increasing. lra. }
  unfold sampleColor.
  cbn [hDecayScale vDecayScale u_effectiveHeat baseTemp plasmaThreshold].
  destruct (Rge_dec (300 + heat * 1 * vf * 1e6) 3000) as [Hge|_]; [nra|].
  rewrite fdiv_defined by lra. cbn [bind]. f_equal. f_equal; lra.
Qed.


Lemma channelMaxOf_constant c cs :
  cs <> [] -> Forall (eq c) cs -> channelMaxOf cs = Some c.
Proof.
  intros Hne HF. destruct cs as [|c0 cs]; [congruence|].
  inversion HF as [|? ? Hc0 HFcs]; subst. cbn. f_equal.
  clear Hne HF. induction cs as [|c1 cs IH]; [reflexivity|].
  inversion HFcs as [|? ? Hc1 HFcs']; subst. cbn.
  rewrite vmax_idem. apply IH. exact HFcs'.
Qed.

Lemma sampled_constant (f : vec3 -> option vec3) c ps :
  (forall p, f p = Some c) ->
  forall cs, map f ps = map Some cs -> Forall (eq c) cs.
Proof.
  intros Hf. induction ps as [|p ps IH]; intros [|c0 cs] H;
    try discriminate H; constructor.
  - cbn in H. rewrite Hf in H. injection H as H _. exact H.
  - apply IH. cbn in H. injection H as _ H. exact H.
Qed.

(** With no heat every marched fragment is blue. *)
Lemma march_without_heat u vPosition rayDir a b :
  u_effectiveHeat u = 0 -> baseTemp u < plasmaThreshold u ->
  hDecayScale u <> 0 -> vDecayScale u <> 0 ->
  normalize (vsub vPosition (rayOrigin u)) = Some rayDir ->
  slabs u rayDir = Some (a, b) ->
  ~ xlt b (Finite 0) -> ~ xlt b a ->
  exists points,
    main u vPosition = Some (FragColor (Vec4 (Vec3 0 0 1) 0.4), points).
Proof.
  intros Hheat Hb Hh Hv Hn Hs H0 Hab.
  destruct (slabs_finite _ _ _ _ _ Hn Hs H0 Hab)
    as [tmin [tmax [-> [-> [Htmax Hle]]]]].
  assert (Hheat' : 0 <= u_effectiveHeat u) by lra.
  destruct (march_channel_max u Hheat' Hb Hh Hv vPosition rayDir tmin tmax
              Hn Hs Htmax Hle)
    as [colors [m [_ [_ [Hmap [Hmax [Hmain _]]]]]]].
  assert (HF : Forall (eq (Vec3 0 0 1)) colors).
  { apply sampled_constant with (2 := Hmap). intros p.
    apply sample_without_heat; assumption. }
  rewrite (channelMaxOf_constant (Vec3 0 0 1)) in Hmax; [| |exact HF].
  - injection Hmax as <-. eexists. exact Hmain.
  - intros E. subst colors. discriminate Hmax.
Qed.

End RayMarcher.

(** * More properties *)

(** ** The trajectory *)

Section Trajectory.

Lemma density_le_rho0 a : 0 <= a -> density a <= 1.225.
Proof.
  intros Ha. unfold density.
  assert (H : exp (- a / 8400) <= 1).
  { rewrite <- exp_0. destruct (Req_dec_T a 0) as [->|Hne].
    - right. f_equal. lra.
    - left. apply exp_increasing. lra. }
  lra.
Qed.

Lemma airborne_descent m s dt :
  0 <= dt -> 0 < altitude s ->
  altitude (App.useFrame true m s dt) <= Rmax (altitude s - 200 * dt) 0.
Proof.
  intros Hdt Ha. pose proof (useFrame_speed_floor m s dt Ha) as Hv.
  rewrite useFrame_airborne in * by exact Ha. cbn [altitude speed] in *.
  apply Rmax_lub; [|apply Rmax_r].
  eapply Rle_trans; [|apply Rmax_l]. nra.
Qed.

(** X1: with a non-negative [delta] no frame raises the altitude, and a
    running frame above the ground lowers it by at least [200 * delta], or
    to the ground. *)
Theorem frame_descends b m s dt :
  0 <= dt ->
  altitude (App.useFrame b m s dt) <= altitude s /\
  (0 < altitude s ->
   altitude (App.useFrame true m s dt) <= Rmax (altitude s - 200 * dt) 0).
Proof.
  intros Hdt. split; [|apply airborne_descent; exact Hdt].
  destruct b; [|rewrite useFrame_paused; lra].
  destruct (Rle_dec (altitude s) 0) as [Hle|Hgt].
  - rewrite useFrame_grounded by exact Hle. lra.
  - eapply Rle_trans; [apply airborne_descent; lra|]. apply Rmax_lub; nra.
Qed.

Lemma frame_descends_witness :
  altitude (App.useFrame true 0 App.initialState 1) <= 120000 - 200 * 1.
Proof.
  destruct (frame_descends true 0 App.initialState 1) as [_ H]; [lra|].
  eapply Rle_trans; [apply H; cbn; lra|].
  cbn. apply Rmax_lub; lra.
Defined.

(** X2: with a non-negative [delta], a speed of at least 200 never
    increases and never falls below 200. *)
Theorem speed_never_increases b m s dt :
  0 <= dt -> 200 <= speed s ->
  200 <= speed (App.useFrame b m s dt) <= speed s.
Proof.
  intros Hdt Hv.
  destruct b; [|rewrite useFrame_paused; lra].
  destruct (Rle_dec (altitude s) 0) as [Hle|Hgt].
  - rewrite useFrame_grounded by exact Hle. lra.
  - rewrite useFrame_airborne by lra. cbn [speed].
    split; [apply Rmax_r|]. apply Rmax_lub; [|exact Hv].
    pose proof (density_pos (altitude s)) as Hd.
    assert (0 <= density (altitude s) * 0.81 * speed s) by nra.
    nra.
Qed.

Lemma speed_never_increases_witness :
  200 <= speed (App.useFrame true 0 App.initialState 1) <= 7222.22.
Proof.
  apply (speed_never_increases true 0 App.initialState 1); cbn; lra.
Defined.

(** X3: the vehicle lands.  After [n] running frames whose [delta] is at
    least [d > 0], a state that started no higher than [200 * d * n] is on
    the ground. *)
Theorem ground_is_reached d frames s :
  0 < d ->
  Forall (fun f => isRunning f = true /\ d <= delta f) frames ->
  0 <= altitude s ->
  altitude s <= 200 * d * INR (length frames) ->
  altitude (simulate App.useFrame frames s) = 0.
Proof.
  intros Hd HF. revert s. unfold simulate.
  induction HF as [|f fs [Hrun Hdelta] _ IH]; intros s Ha Hn.
  - cbn in *. lra.
  - cbn [fold_left]. rewrite Hrun. apply IH.
    + destruct (Rle_dec (altitude s) 0) as [Hle|Hgt].
      * rewrite useFrame_grounded by exact Hle. exact Ha.
      * rewrite useFrame_airborne by lra. cbn [altitude]. apply Rmax_r.
    + assert (Hpos : 0 <= 200 * d * INR (length fs)).
      { pose proof (pos_INR (length fs)). nra. }
      destruct (Rle_dec (altitude s) 0) as [Hle|Hgt].
      * rewrite useFrame_grounded by exact Hle. lra.
      * eapply Rle_trans; [apply airborne_descent; lra|].
        cbn [length] in Hn. rewrite S_INR in Hn.
        apply Rmax_lub; nra.
Qed.

(** Six hundred frames of one second land the vehicle from its initial
    altitude. *)
Lemma ground_is_reached_witness :
  altitude (simulate App.useFrame (repeat (mkFrame true 0 1) 600)
                     App.initialState) = 0.
Proof.
  apply (ground_is_reached 1).
  - lra.
  - apply Forall_forall. intros f Hf. apply repeat_spec in Hf. subst f.
    cbn. split; [reflexivity | lra].
  - cbn. lra.
  - rewrite repeat_length, INR_IZR_INZ. cbn. lra.
Defined.

Lemma frame_motion_ignores_magnet b m1 m2 s1 s2 dt :
  altitude s1 = altitude s2 -> speed s1 = speed s2 ->
  altitude (App.useFrame b m1 s1 dt) = altitude (App.useFrame b m2 s2 dt) /\
  speed (App.useFrame b m1 s1 dt) = speed (App.useFrame b m2 s2 dt).
Proof.
  intros Ea Ev. destruct b; [|rewrite !useFrame_paused; split; assumption].
  destruct (Rle_dec (altitude s1) 0) as [Hle|Hgt].
  - rewrite !useFrame_grounded by lra. split; assumption.
  - rewrite !useFrame_airborne by lra. cbn [altitude speed].
    rewrite Ea, Ev. split; reflexivity.
Qed.

(** X4: the magnet does not steer.  Two runs that start at the same
    altitude and speed and see the same [isRunning] and [delta] frame by
    frame end at the same altitude and speed, whatever [magnetPower] each
    frame had. *)
Theorem magnet_does_not_steer frames1 frames2 s1 s2 :
  Forall2 (fun f1 f2 => isRunning f1 = isRunning f2 /\ delta f1 = delta f2)
          frames1 frames2 ->
  altitude s1 = altitude s2 -> speed s1 = speed s2 ->
  altitude (simulate App.useFrame frames1 s1)
    = altitude (simulate App.useFrame frames2 s2) /\
  speed (simulate App.useFrame frames1 s1)
    = speed (simulate App.useFrame frames2 s2).
Proof.
  intros HF. revert s1 s2. unfold simulate.
  induction HF as [|f1 f2 fs1 fs2 [Hr Hd] _ IH]; intros s1 s2 Ea Ev; cbn.
  - split; assumption.
  - rewrite Hr, Hd.
    destruct (frame_motion_ignores_magnet (isRunning f2) (magnetPower f1)
                (magnetPower f2) s1 s2 (delta f2) Ea Ev) as [Ea' Ev'].
    apply IH; assumption.
Qed.

Lemma magnet_does_not_steer_witness :
  altitude (simulate App.useFrame [mkFrame true 0 1; mkFrame true 4 1]
                     App.initialState)
  = altitude (simulate App.useFrame [mkFrame true 3 1; mkFrame true 1 1]
                       App.initialState).
Proof.
  apply (magnet_does_not_steer [mkFrame true 0 1; mkFrame true 4 1]
           [mkFrame true 3 1; mkFrame true 1 1]);
    [repeat constructor | reflexivity | reflexivity].
Defined.

(** X5: the shielding is linear.  Above the ground the published heat is
    the unshielded heat (that of [magnetPower = 0]) times
    [1 - magnetPower / 5]: a fifth of it goes with each unit, and nothing is
    left at 5. *)
Theorem heat_scales_with_magnet m s dt :
  0 < altitude s ->
  effectiveHeat (App.useFrame true m s dt)
    = (1 - m / 5) * effectiveHeat (App.useFrame true 0 s dt) /\
  effectiveHeat (App.useFrame true 5 s dt) = 0.
Proof.
  intros Ha. rewrite !useFrame_airborne by exact Ha. cbn [effectiveHeat].
  unfold heatOf, reductionFactor. split; lra.
Qed.

Lemma heat_scales_with_magnet_witness :
  effectiveHeat (App.useFrame true 4 App.initialState 1)
    = (1 - 4 / 5) * effectiveHeat (App.useFrame true 0 App.initialState 1).
Proof.
  apply (heat_scales_with_magnet 4 App.initialState 1). cbn. lra.
Defined.

(** X6: frames met while the simulation is stopped can be left out of a
    run. *)
Theorem paused_frames_are_skipped frames s :
  simulate App.useFrame frames s
    = simulate App.useFrame (filter isRunning frames) s.
Proof.
  unfold simulate. revert s. induction frames as [|f fs IH]; intros s.
  - reflexivity.
  - cbn [filter fold_left]. destruct (isRunning f) eqn:Hr.
    + cbn [fold_left]. rewrite Hr. apply IH.
    + rewrite useFrame_paused. apply IH.
Qed.

(** X7: the heat does not cool down on landing.  The frame that brings
    the vehicle to the ground publishes the heat of the altitude and speed
    it came from, positive when [magnetPower < 5]; and every later frame
    leaves that heat, like the rest of the state, as it is. *)
Theorem landing_heat_stays m s dt frames :
  0 < altitude s -> 0 < speed s -> m < 5 ->
  altitude (App.useFrame true m s dt) = 0 ->
  let landed := App.useFrame true m s dt in
  simulate App.useFrame frames landed = landed /\
  effectiveHeat landed = heatOf (altitude s) (speed s) m /\
  0 < effectiveHeat landed.
Proof.
  intros Ha Hv Hm Hland landed.
  split; [apply simulate_grounded; unfold landed; lra|].
  unfold landed. rewrite useFrame_airborne by exact Ha. cbn [effectiveHeat].
  split; [reflexivity|]. unfold heatOf, reductionFactor.
  pose proof (density_pos (altitude s)) as Hd.
  assert (H3 : 0 < speed s ^ 3) by (apply pow_lt; exact Hv).
  assert (0 < density (altitude s) * speed s ^ 3)
    by (apply Rmult_lt_0_compat; assumption).
  assert (0 < density (altitude s) * speed s ^ 3 * (1 - m / 5))
    by (apply Rmult_lt_0_compat; lra).
  lra.
Qed.

Lemma landing_heat_stays_witness :
  0 < effectiveHeat (App.useFrame true 0 (mkState 1 200 0) 0.016).
Proof.
  apply (landing_heat_stays 0 (mkState 1 200 0) 0.016 []); try (cbn; lra).
  rewrite landing_frame. reflexivity.
Defined.

End Trajectory.

(** ** The page: stopping, restarting, the slider *)

Section Page.

Import AppComponent.

Lemma heatOf_bounded a v m :
  0 <= a -> 0 <= v <= 7222.22 -> 0 <= m <= 4 ->
  0 <= heatOf a v m <= 1.225 * 7222.22 ^ 3 * 1.2e-11.
Proof.
  intros Ha [Hv0 Hv1] [Hm0 Hm1]. split; [apply heatOf_nonneg; lra|].
  unfold heatOf, reductionFactor.
  pose proof (density_pos a) as Hd0. pose proof (density_le_rho0 a Ha) as Hd1.
  assert (H3 : 0 <= v ^ 3) by (apply pow_le; exact Hv0).
  assert (H3' : v ^ 3 <= 7222.22 ^ 3) by (apply pow_incr; lra).
  assert (H1 : density a * v ^ 3 <= 1.225 * 7222.22 ^ 3).
  { apply Rmult_le_compat; lra. }
  assert (H2 : density a * v ^ 3 * (1 - m / 5) <= 1.225 * 7222.22 ^ 3 * 1).
  { apply Rmult_le_compat; try lra. apply Rmult_le_pos; lra. }
  lra.
Qed.

Lemma onEvent_invariant a e :
  pageEvent e -> pageInvariant a -> pageInvariant (onEvent a e).
Proof.
  intros He (Ha & Hv & Hh & Hm).
  destruct e as [dt| | |v]; cbn in He; unfold pageInvariant; cbn.
  - destruct (isRunning a); [|rewrite useFrame_paused; tauto].
    destruct (Rle_dec (altitude (simulationState a)) 0) as [Hle|Hgt].
    + rewrite useFrame_grounded by exact Hle. tauto.
    + pose proof (airborne_descent (magnetPower a) (simulationState a) dt
                    He ltac:(lra)) as Hdown.
      rewrite useFrame_airborne in * by lra.
      cbn [altitude speed effectiveHeat] in *.
      pose proof (density_pos (altitude (simulationState a))) as Hd.
      assert (0 <= density (altitude (simulationState a)) * 0.81
                   * speed (simulationState a)) by nra.
      repeat split; try lra.
      * apply Rmax_r.
      * eapply Rle_trans; [exact Hdown|]. apply Rmax_lub; nra.
      * apply Rmax_r.
      * apply Rmax_lub; nra.
      * apply heatOf_bounded; lra.
      * apply heatOf_bounded; lra.
  - repeat split; lra.
  - tauto.
  - tauto.
Qed.

(** X8: whatever the user does, and however long the frames are, the page
    never shows a state outside these bounds: altitude within [0, 120000],
    speed within [200, 7222.22], effective heat within
    [0, 1.225 * 7222.22^3 * 1.2e-11], [magnetPower] within [0, 4]. *)
Theorem page_stays_within_bounds events :
  Forall pageEvent events -> pageInvariant (run events initial).
Proof.
  intros HF.
  assert (H0 : pageInvariant initial).
  { unfold pageInvariant, initial. cbn. repeat split; lra. }
  revert H0. generalize initial. unfold run.
  induction HF as [|e es He _ IH]; intros a Ha; cbn.
  - exact Ha.
  - apply IH. apply onEvent_invariant; assumption.
Qed.

Lemma page_stays_within_bounds_witness :
  pageInvariant
    (run [Tick 0.016; SliderChange 2.5; Tick 1; StopClick; Tick 1;
          RestartClick; Tick 0.5] initial).
Proof.
  apply page_stays_within_bounds.
  repeat constructor; cbn; lra.
Defined.

(** X9: there is no resume.  Once stopped, the simulation state stays as
    it is and [isRunning] stays false through every frame, slider change and
    further stop, until "Restart Simulation" is clicked, which starts again
    from the initial state and keeps the slider's value. *)
Theorem stop_holds_until_restart events a :
  isRunning a = false ->
  Forall (fun e => e <> RestartClick) events ->
  simulationState (run events a) = simulationState a /\
  isRunning (run events a) = false /\
  run (events ++ [RestartClick]) a
    = mkApp (mkState 120000 7222.22 0) (magnetPower (run events a)) true.
Proof.
  intros Hstop HF.
  assert (H : simulationState (run events a) = simulationState a /\
              isRunning (run events a) = false).
  { revert a Hstop. unfold run.
    induction HF as [|e es He _ IH]; intros a Hstop; cbn.
    - split; [reflexivity | exact Hstop].
    - destruct e as [dt| | |v]; cbn.
      + rewrite Hstop, useFrame_paused.
        destruct (IH (mkApp (simulationState a) (magnetPower a) false))
          as [H1 H2]; [reflexivity|].
        rewrite <- Hstop in H1, H2 at 1. destruct a; cbn in *. subst.
        split; assumption.
      + contradiction He. reflexivity.
      + apply (IH (mkApp (simulationState a) (magnetPower a) false)).
        reflexivity.
      + apply (IH (mkApp (simulationState a) v (isRunning a))).
        exact Hstop. }
  destruct H as [H1 H2]. split; [exact H1|]. split; [exact H2|].
  unfold run. rewrite fold_left_app. reflexivity.
Qed.

Lemma stop_holds_until_restart_witness :
  simulationState
    (run [Tick 1; SliderChange 3; StopClick; Tick 2]
         (run [Tick 1; StopClick] initial))
  = simulationState (run [Tick 1; StopClick] initial).
Proof.
  apply (stop_holds_until_restart [Tick 1; SliderChange 3; StopClick; Tick 2]
           (run [Tick 1; StopClick] initial)).
  - reflexivity.
  - repeat constructor; discriminate.
Defined.

End Page.

(** ** The other integrators *)

Section OtherIntegrators.

(** X10: the variant with quadratic drag.  On a running frame above the
    ground, with a non-negative [delta] and a speed of at least 200: the
    speed stays within [200, speed], the altitude within [0, altitude], the
    published raw flux is not negative, and the published effective heat is
    the published raw flux times [1 - magnetPower / 5] times the scaling
    constant. *)
Theorem plasmaFlux_frame m p dt :
  0 < PlasmaFluxApp.altitude p -> 0 <= dt -> 200 <= PlasmaFluxApp.speed p ->
  let p' := PlasmaFluxApp.useFrame true m p dt in
  200 <= PlasmaFluxApp.speed p' <= PlasmaFluxApp.speed p /\
  0 <= PlasmaFluxApp.altitude p' <= PlasmaFluxApp.altitude p /\
  0 <= PlasmaFluxApp.plasmaFluxDensity p' /\
  PlasmaFluxApp.effectiveHeat p'
    = PlasmaFluxApp.plasmaFluxDensity p' * (1 - m / 5) * 1.2e-11.
Proof.
  intros Ha Hdt Hv. cbv zeta.
  rewrite plasmaFlux_useFrame_airborne by exact Ha.
  cbn [PlasmaFluxApp.altitude PlasmaFluxApp.speed
       PlasmaFluxApp.plasmaFluxDensity PlasmaFluxApp.effectiveHeat].
  set (alt := PlasmaFluxApp.altitude p) in *.
  set (v := PlasmaFluxApp.speed p) in *.
  pose proof (density_pos alt) as Hd.
  assert (Hv2 : 0 <= v ^ 2) by (apply pow_le; lra).
  assert (Hv3 : 0 <= v ^ 3) by (apply pow_le; lra).
  assert (Hdrag : 0 <= 0.5 * density alt * v ^ 2 * 0.81 * (50 * 10) / 2e5).
  { assert (0 <= density alt * v ^ 2) by nra. lra. }
  set (newSpeed :=
         Rmax (v + (- 9.81 - 0.5 * density alt * v ^ 2 * 0.81 * (50 * 10)
                                / 2e5) * dt) 200).
  assert (Hs : 200 <= newSpeed <= v).
  { unfold newSpeed. split; [apply Rmax_r|]. apply Rmax_lub; nra. }
  split; [exact Hs|]. split; [|split].
  - split; [apply Rmax_r|]. apply Rmax_lub; nra.
  - nra.
  - unfold heatOf, reductionFactor. lra.
Qed.

Lemma plasmaFlux_frame_witness :
  200 <= PlasmaFluxApp.speed
           (PlasmaFluxApp.useFrame true 2 PlasmaFluxApp.initialState 1)
      <= 7222.
Proof.
  apply (plasmaFlux_frame 2 PlasmaFluxApp.initialState 1); cbn; lra.
Defined.

Lemma stalled_frame b m s dt :
  0 < altitude s -> speed s = 0 -> 0 <= dt ->
  altitude (HeatAndSpeedGraphApp.useFrame b m s dt) = altitude s /\
  speed (HeatAndSpeedGraphApp.useFrame b m s dt) = 0.
Proof.
  intros Ha Hv Hdt. unfold HeatAndSpeedGraphApp.useFrame.
  destruct (negb b); [split; [reflexivity | exact Hv]|].
  destruct (Rle_dec (altitude s) 0) as [Hle|_]; [lra|].
  cbn [altitude speed]. rewrite Hv.
  assert (E : Rmax (0 - (9.81 + HeatAndSpeedGraphApp.rho0
                                * exp (- altitude s
                                       / HeatAndSpeedGraphApp.scaleHeight)
                                * 0.81 * 0) * dt) 0 = 0)
    by (apply Rmax_right; nra).
  rewrite E. split; [|reflexivity].
  rewrite Rmax_left by lra. lra.
Qed.

(** X11: in the variant whose speed floor is 0 the vehicle can stop in
    mid-air for good.  A running frame of [delta >= speed / 9.81] above the
    ground publishes speed 0 at an unchanged altitude; and from a state of
    speed 0 above the ground, no sequence of frames of non-negative [delta]
    changes the altitude or the speed again. *)
Theorem floor_zero_stalls :
  (forall m s dt,
     0 < altitude s -> 0 <= speed s -> speed s <= 9.81 * dt ->
     altitude (HeatAndSpeedGraphApp.useFrame true m s dt) = altitude s /\
     speed (HeatAndSpeedGraphApp.useFrame true m s dt) = 0) /\
  (forall frames s,
     0 < altitude s -> speed s = 0 ->
     Forall (fun f => 0 <= delta f) frames ->
     altitude (simulate HeatAndSpeedGraphApp.useFrame frames s) = altitude s /\
     speed (simulate HeatAndSpeedGraphApp.useFrame frames s) = 0).
Proof.
  split.
  - intros m s dt Ha Hv Hdt. unfold HeatAndSpeedGraphApp.useFrame.
    cbn [negb]. destruct (Rle_dec (altitude s) 0) as [Hle|_]; [lra|].
    cbn [altitude speed].
    assert (Hd : 0 < HeatAndSpeedGraphApp.rho0
                     * exp (- altitude s / HeatAndSpeedGraphApp.scaleHeight)).
    { unfold HeatAndSpeedGraphApp.rho0.
      pose proof (exp_pos (- altitude s / HeatAndSpeedGraphApp.scaleHeight)).
      lra. }
    assert (Hdt0 : 0 <= dt) by lra.
    set (rho := HeatAndSpeedGraphApp.rho0
                * exp (- altitude s / HeatAndSpeedGraphApp.scaleHeight)) in *.
    assert (Hdrag : 0 <= rho * 0.81 * speed s * dt).
    { apply Rmult_le_pos; [|exact Hdt0]. nra. }
    assert (E : Rmax (speed s - (9.81 + rho * 0.81 * speed s) * dt) 0 = 0)
      by (apply Rmax_right; nra).
    rewrite E. split; [|reflexivity].
    rewrite Rmax_left by lra. lra.
  - intros frames s Ha Hv HF. revert s Ha Hv. unfold simulate.
    induction HF as [|f fs Hf _ IH]; intros s Ha Hv; cbn.
    + split; [reflexivity | exact Hv].
    + destruct (stalled_frame (isRunning f) (magnetPower f) s (delta f)
                  Ha Hv Hf) as [Ea Ev].
      destruct (IH _ ltac:(rewrite Ea; exact Ha) Ev) as [H1 H2].
      split; [rewrite H1; exact Ea | exact H2].
Qed.

Lemma floor_zero_stalls_witness :
  altitude (simulate HeatAndSpeedGraphApp.useFrame
              [mkFrame true 0 1; mkFrame true 4 60]
              (HeatAndSpeedGraphApp.useFrame true 0 (mkState 1000 5 0) 1))
  = 1000.
Proof.
  destruct floor_zero_stalls as [Hstop Hstay].
  destruct (Hstop 0 (mkState 1000 5 0) 1) as [Ea Ev]; try (cbn; lra).
  destruct (Hstay [mkFrame true 0 1; mkFrame true 4 60]
                  (HeatAndSpeedGraphApp.useFrame true 0 (mkState 1000 5 0) 1))
    as [H _].
  - rewrite Ea. cbn. lra.
  - exact Ev.
  - repeat constructor; cbn; lra.
  - rewrite H. exact Ea.
Defined.

End OtherIntegrators.

(** ** The surface shaders *)

Section SurfaceShaders.

Lemma color_is_rampColor u T :
  App.baseTemp u < App.plasmaThreshold u -> App.baseTemp u <= T ->
  exists c, App.color u T = Some c /\ rampColor c.
Proof.
  intros Hb HT. destruct (Rle_dec (App.plasmaThreshold u) T) as [Hge|Hlt].
  - exists App.plasmaColor. split; [apply color_plasma; exact Hge|].
    unfold rampColor, App.plasmaColor. cbn. lra.
  - rewrite color_ramp by lra. eexists. split; [reflexivity|].
    assert (Hd : 0 < App.plasmaThreshold u - App.baseTemp u) by lra.
    assert (H0 : 0 <= (T - App.baseTemp u)
                      / (App.plasmaThreshold u - App.baseTemp u)).
    { apply Rmult_le_pos; [lra|]. left. apply Rinv_0_lt_compat. exact Hd. }
    assert (H1 : (T - App.baseTemp u)
                 / (App.plasmaThreshold u - App.baseTemp u) < 1).
    { apply Rmult_lt_reg_r with (App.plasmaThreshold u - App.baseTemp u);
        [exact Hd|].
      unfold Rdiv. rewrite Rmult_assoc, Rinv_l by lra. lra. }
    unfold rampColor. cbn. lra.
Qed.

(** The colour statement of the decay variant is that of src/App.js. *)
Lemma decay_color_is_color (u : DecayApp.Uniforms) T :
  DecayApp.color u T =
    App.color (App.mkUniforms (DecayApp.u_effectiveHeat u)
                 (DecayApp.baseTemp u) (DecayApp.plasmaThreshold u)) T.
Proof. reflexivity. Qed.

(** The ramp never yields the plasma colour: its channels sum to 1. *)
Lemma color_plasma_iff u T :
  App.color u T = Some App.plasmaColor <-> App.plasmaThreshold u <= T.
Proof.
  split; [|apply color_plasma].
  intros H. unfold App.color in H.
  destruct (Rge_dec T (App.plasmaThreshold u)) as [Hge|Hlt]; [lra|].
  unfold fdiv in H.
  destruct (Req_dec_T (App.plasmaThreshold u - App.baseTemp u) 0);
    [discriminate H|].
  cbn in H. injection H as H1 H2. lra.
Qed.

Lemma decay_temperature_defined (u : DecayApp.Uniforms) p :
  DecayApp.hDecayScale u <> 0 -> DecayApp.vDecayScale u <> 0 ->
  DecayApp.temperature u p =
    Some (DecayApp.baseTemp u
          + DecayApp.u_effectiveHeat u
            * exp (- length_xz p / DecayApp.hDecayScale u)
            * exp (- ((vy p + 5) / DecayApp.vDecayScale u)) * 1e6).
Proof.
  intros Hh Hv. unfold DecayApp.temperature.
  rewrite !fdiv_defined by assumption. reflexivity.
Qed.

(** X12: with a heat that is not negative and [baseTemp < plasmaThreshold]
    (and non-zero decay scales where there are any), the surface shaders
    always write a colour, its red and blue channels lie in [0, 1] and its
    green channel is 0; alpha is 0.8 in src/App.js and 0.4 in the decay
    variant. *)
Theorem surface_shaders_write_a_color (u : App.Uniforms)
    (w : DecayApp.Uniforms) (p : vec3) :
  0 <= App.u_effectiveHeat u -> App.baseTemp u < App.plasmaThreshold u ->
  0 <= DecayApp.u_effectiveHeat w ->
  DecayApp.baseTemp w < DecayApp.plasmaThreshold w ->
  DecayApp.hDecayScale w <> 0 -> DecayApp.vDecayScale w <> 0 ->
  (exists c, App.main u p = Some (Vec4 c 0.8) /\ rampColor c) /\
  (exists c, DecayApp.main w p = Some (Vec4 c 0.4) /\ rampColor c).
Proof.
  intros Hu Hb Hw Hb' Hh Hv. split.
  - destruct (color_is_rampColor u (App.temperature u p) Hb) as [c [Hc Hr]].
    { unfold App.temperature.
      pose proof (exp_pos (- length_xz p / 3)) as He.
      assert (0 <= App.u_effectiveHeat u * exp (- length_xz p / 3)) by nra.
      lra. }
    exists c. split; [|exact Hr]. unfold App.main. rewrite Hc. reflexivity.
  - unfold DecayApp.main.
    rewrite decay_temperature_defined by assumption. cbn [bind].
    set (T := DecayApp.baseTemp w + _).
    destruct (color_is_rampColor
                (App.mkUniforms (DecayApp.u_effectiveHeat w)
                   (DecayApp.baseTemp w) (DecayApp.plasmaThreshold w)) T Hb')
      as [c [Hc Hr]].
    { unfold T. cbn.
      pose proof (exp_pos (- length_xz p / DecayApp.hDecayScale w)) as He1.
      pose proof (exp_pos (- ((vy p + 5) / DecayApp.vDecayScale w))) as He2.
      assert (0 <= DecayApp.u_effectiveHeat w
                   * exp (- length_xz p / DecayApp.hDecayScale w)) by nra.
      assert (0 <= DecayApp.u_effectiveHeat w
                   * exp (- length_xz p / DecayApp.hDecayScale w)
                   * exp (- ((vy p + 5) / DecayApp.vDecayScale w))) by nra.
      lra. }
    exists c. split; [|exact Hr].
    rewrite decay_color_is_color, Hc. reflexivity.
Qed.

Lemma surface_shaders_write_a_color_witness :
  exists c, App.main (App.mkUniforms 0.004 300 3000) (Vec3 1 2 3)
            = Some (Vec4 c 0.8) /\ rampColor c.
Proof.
  destruct (surface_shaders_write_a_color (App.mkUniforms 0.004 300 3000)
              DecayApp.defaultUniforms (Vec3 1 2 3)) as [H _];
    try (cbn; lra).
  exact H.
Defined.

Lemma exp_le a b : a <= b -> exp a <= exp b.
Proof.
  intros [H | ->]; [left; apply exp_increasing; exact H | right; reflexivity].
Qed.

(** X13: in src/App.js the temperature depends on the distance to the
    vertical axis only and does not increase with it, so the plasma band is
    a disc around the axis: a fragment no farther from the axis than a
    plasma fragment is a plasma fragment.  The temperature is highest on
    the axis, where it is [baseTemp + effectiveHeat * 1e6]. *)
Theorem plasma_band_is_a_disc (u : App.Uniforms) :
  0 <= App.u_effectiveHeat u ->
  (forall p q, length_xz q <= length_xz p ->
     App.temperature u p <= App.temperature u q) /\
  (forall p q, length_xz q <= length_xz p ->
     App.main u p = Some (Vec4 App.plasmaColor 0.8) ->
     App.main u q = Some (Vec4 App.plasmaColor 0.8)) /\
  (forall p y,
     App.temperature u p <= App.temperature u (Vec3 0 y 0) /\
     App.temperature u (Vec3 0 y 0)
       = App.baseTemp u + App.u_effectiveHeat u * 1e6).
Proof.
  intros Hu.
  assert (Hmono : forall p q, length_xz q <= length_xz p ->
            App.temperature u p <= App.temperature u q).
  { intros p q Hd. unfold App.temperature.
    assert (He : exp (- length_xz p / 3) <= exp (- length_xz q / 3))
      by (apply exp_le; lra).
    assert (App.u_effectiveHeat u * exp (- length_xz p / 3)
            <= App.u_effectiveHeat u * exp (- length_xz q / 3))
      by (apply Rmult_le_compat_l; assumption).
    lra. }
  split; [exact Hmono|]. split.
  - intros p q Hd Hp.
    assert (Hc : App.color u (App.temperature u p) = Some App.plasmaColor).
    { unfold App.main in Hp.
      destruct (App.color u (App.temperature u p)) as [c|]; [|discriminate Hp].
      cbn in Hp. injection Hp as ->. reflexivity. }
    apply color_plasma_iff in Hc. unfold App.main.
    rewrite color_plasma; [reflexivity|].
    eapply Rle_trans; [exact Hc | apply Hmono; exact Hd].
  - intros p y. split.
    + apply Hmono. rewrite length_xz_axis. apply sqrt_pos.
    + unfold App.temperature. rewrite length_xz_axis.
      replace (- 0 / 3) with 0 by lra. rewrite exp_0. lra.
Qed.

Lemma plasma_band_is_a_disc_witness :
  App.temperature (App.mkUniforms 0.004 300 3000) (Vec3 3 0 4)
    <= 300 + 0.004 * 1e6.
Proof.
  destruct (plasma_band_is_a_disc (App.mkUniforms 0.004 300 3000)) as [_ [_ H]];
    [cbn; lra|].
  destruct (H (Vec3 3 0 4) 0) as [H1 H2].
  cbn [App.baseTemp App.u_effectiveHeat] in H2. rewrite <- H2. exact H1.
Defined.

(** X14: in the decay variant, with positive decay scales and a heat that
    is not negative, the temperature does not increase with the distance to
    the axis nor with the height; on the axis at the bottom of the volume
    ([y = -5]) both factors are 1 and the temperature is
    [baseTemp + effectiveHeat * 1e6], the highest of the whole volume; and a
    fragment no farther from the axis and no higher than a plasma fragment
    is a plasma fragment. *)
Theorem decay_is_hottest_at_bottom_centre (u : DecayApp.Uniforms) :
  0 <= DecayApp.u_effectiveHeat u ->
  0 < DecayApp.hDecayScale u -> 0 < DecayApp.vDecayScale u ->
  (forall p q, length_xz q <= length_xz p -> vy q <= vy p ->
     exists Tp Tq,
       DecayApp.temperature u p = Some Tp /\
       DecayApp.temperature u q = Some Tq /\ Tp <= Tq) /\
  DecayApp.temperature u (Vec3 0 (-5) 0)
    = Some (DecayApp.baseTemp u + DecayApp.u_effectiveHeat u * 1e6) /\
  (forall p q, length_xz q <= length_xz p -> vy q <= vy p ->
     DecayApp.main u p = Some (Vec4 DecayApp.plasmaColor 0.4) ->
     DecayApp.main u q = Some (Vec4 DecayApp.plasmaColor 0.4)).
Proof.
  intros Hu Hh Hv.
  assert (Hh' : DecayApp.hDecayScale u <> 0) by lra.
  assert (Hv' : DecayApp.vDecayScale u <> 0) by lra.
  assert (Hmono : forall p q, length_xz q <= length_xz p -> vy q <= vy p ->
            DecayApp.u_effectiveHeat u
              * exp (- length_xz p / DecayApp.hDecayScale u)
              * exp (- ((vy p + 5) / DecayApp.vDecayScale u))
            <= DecayApp.u_effectiveHeat u
              * exp (- length_xz q / DecayApp.hDecayScale u)
              * exp (- ((vy q + 5) / DecayApp.vDecayScale u))).
  { intros p q Hd Hy.
    assert (Hih : 0 < / DecayApp.hDecayScale u)
      by (apply Rinv_0_lt_compat; exact Hh).
    assert (Hiv : 0 < / DecayApp.vDecayScale u)
      by (apply Rinv_0_lt_compat; exact Hv).
    assert (He1 : exp (- length_xz p / DecayApp.hDecayScale u)
                  <= exp (- length_xz q / DecayApp.hDecayScale u)).
    { apply exp_le. unfold Rdiv. nra. }
    assert (He2 : exp (- ((vy p + 5) / DecayApp.vDecayScale u))
                  <= exp (- ((vy q + 5) / DecayApp.vDecayScale u))).
    { apply exp_le. unfold Rdiv. nra. }
    pose proof (exp_pos (- length_xz p / DecayApp.hDecayScale u)).
    pose proof (exp_pos (- ((vy p + 5) / DecayApp.vDecayScale u))).
    rewrite !Rmult_assoc. apply Rmult_le_compat_l; [exact Hu|].
    apply Rmult_le_compat; lra. }
  split; [|split].
  - intros p q Hd Hy. do 2 eexists.
    rewrite !decay_temperature_defined by assumption.
    split; [reflexivity|]. split; [reflexivity|].
    specialize (Hmono p q Hd Hy). lra.
  - rewrite decay_temperature_defined by assumption. f_equal.
    rewrite length_xz_axis. cbn [vy].
    replace (- 0 / DecayApp.hDecayScale u) with 0
      by (unfold Rdiv; lra).
    replace (- ((-5 + 5) / DecayApp.vDecayScale u)) with 0
      by (unfold Rdiv; lra).
    rewrite exp_0. lra.
  - intros p q Hd Hy Hp. unfold DecayApp.main in *.
    rewrite decay_temperature_defined in * by assumption. cbn [bind] in *.
    rewrite decay_color_is_color in *.
    match type of Hp with
    | context [App.color ?w ?T] =>
        assert (Hc : App.color w T = Some App.plasmaColor)
    end.
    { match type of Hp with
      | context [App.color ?w ?T] =>
          destruct (App.color w T) as [c|]; [|discriminate Hp]
      end.
      cbn in Hp. injection Hp as ->. reflexivity. }
    apply color_plasma_iff in Hc. rewrite color_plasma; [reflexivity|].
    eapply Rle_trans; [exact Hc|]. specialize (Hmono p q Hd Hy).
    cbn [App.baseTemp]. lra.
Qed.

Lemma decay_is_hottest_at_bottom_centre_witness :
  DecayApp.temperature (DecayApp.mkUniforms 0.004 300 3000 3 5)
                       (Vec3 0 (-5) 0)
  = Some (300 + 0.004 * 1e6).
Proof.
  destruct (decay_is_hottest_at_bottom_centre
              (DecayApp.mkUniforms 0.004 300 3000 3 5)) as [_ [H _]];
    try (cbn; lra).
  exact H.
Defined.

End SurfaceShaders.

(** ** The geometry of the march *)

Section MarcherGeometry.

Import RayMarchApp.

(** *** Order on the extended reals *)

Lemma xle_trans_finite x t t' : xle x (Finite t) -> t <= t' -> xle x (Finite t').
Proof. intros H Ht. xorder. Qed.

Lemma xge_trans_finite x t t' : xle (Finite t) x -> t' <= t -> xle (Finite t') x.
Proof. intros H Ht. xorder. Qed.

Lemma xmax_ub x y z : xle (xmax x y) z -> xle x z /\ xle y z.
Proof. intros H. split; xorder. Qed.

Lemma xmin_lb x y z : xle z (xmin x y) -> xle z x /\ xle z y.
Proof. intros H. split; xorder. Qed.

Lemma xmax_lub x y z : xle x z -> xle y z -> xle (xmax x y) z.
Proof. intros H1 H2. xorder. Qed.

Lemma xmin_glb x y z : xle z x -> xle z y -> xle z (xmin x y).
Proof. intros H1 H2. xorder. Qed.

Lemma xle_refl x : xle x x.
Proof. xorder. Qed.

Lemma xle_finite a b : xle (Finite a) (Finite b) <-> a <= b.
Proof. unfold xle. cbn. lra. Qed.

Lemma xle_through x t y : xle x (Finite t) -> xle (Finite t) y -> ~ xlt y x.
Proof. intros H1 H2. xorder. Qed.

(** *** One axis of the slab method *)

Lemma slab_finite_axis a d :
  d <> 0 -> xmul a (xinv d) = Some (Finite (a * (1 / d))).
Proof. intros Hd. rewrite xinv_nonzero by exact Hd. reflexivity. Qed.

Lemma scale_back a d : d <> 0 -> d * (a * (1 / d)) = a.
Proof. intros Hd. field. exact Hd. Qed.

(** The parameters between the two slab parameters of an axis are those of
    the points of the ray between the two faces. *)
Lemma axis_between h o d t0 t1 t :
  0 <= h ->
  xmul (- h - o) (xinv d) = Some t0 -> xmul (h - o) (xinv d) = Some t1 ->
  (xle (xmin t0 t1) (Finite t) /\ xle (Finite t) (xmax t0 t1)
   <-> - h <= o + d * t <= h).
Proof.
  intros Hh H0 H1. destruct (Req_dec_T d 0) as [Hd|Hd].
  - subst d. unfold xinv in H0, H1.
    destruct (Req_dec_T 0 0) as [_|Hn]; [|exfalso; apply Hn; reflexivity].
    cbn in H0, H1.
    destruct (Rlt_dec 0 (- h - o)); destruct (Rlt_dec (- h - o) 0);
      destruct (Rlt_dec 0 (h - o)); destruct (Rlt_dec (h - o) 0);
      try discriminate H0; try discriminate H1;
      injection H0 as <-; injection H1 as <-;
      split; intros H; try (exfalso; lra);
      try (destruct H as [Ha Hb]; xorder; fail);
      try lra.
  - rewrite slab_finite_axis in H0, H1 by exact Hd.
    injection H0 as <-. injection H1 as <-.
    rewrite xmin_finite, xmax_finite, !xle_finite.
    pose proof (scale_back (- h - o) d Hd) as Ea.
    pose proof (scale_back (h - o) d Hd) as Eb.
    set (A := (- h - o) * (1 / d)) in *. set (B := (h - o) * (1 / d)) in *.
    destruct (Rlt_dec 0 d) as [Hpos|Hneg].
    + assert (HAB : A <= B).
      { apply Rmult_le_reg_l with d; [exact Hpos|]. lra. }
      rewrite Rmin_left, Rmax_right by exact HAB. split.
      * intros [Hlo Hhi].
        assert (d * A <= d * t) by (apply Rmult_le_compat_l; lra).
        assert (d * t <= d * B) by (apply Rmult_le_compat_l; lra).
        lra.
      * intros [Hlo Hhi]. split.
        -- apply Rmult_le_reg_l with d; [exact Hpos|]. lra.
        -- apply Rmult_le_reg_l with d; [exact Hpos|]. lra.
    + assert (Hd' : 0 < - d) by lra.
      assert (HBA : B <= A).
      { apply Rmult_le_reg_l with (- d); [exact Hd'|]. lra. }
      rewrite Rmin_right, Rmax_left by exact HBA. split.
      * intros [Hlo Hhi].
        assert (- d * B <= - d * t) by (apply Rmult_le_compat_l; lra).
        assert (- d * t <= - d * A) by (apply Rmult_le_compat_l; lra).
        lra.
      * intros [Hlo Hhi]. split.
        -- apply Rmult_le_reg_l with (- d); [exact Hd'|]. lra.
        -- apply Rmult_le_reg_l with (- d); [exact Hd'|]. lra.
Qed.

(** *** The three axes together *)

Lemma slabs_inv u d a b :
  slabs u d = Some (a, b) ->
  exists t0x t0y t0z t1x t1y t1z,
    xmul (- vx (boxHalfSize u) - vx (rayOrigin u)) (xinv (vx d)) = Some t0x /\
    xmul (- vy (boxHalfSize u) - vy (rayOrigin u)) (xinv (vy d)) = Some t0y /\
    xmul (- vz (boxHalfSize u) - vz (rayOrigin u)) (xinv (vz d)) = Some t0z /\
    xmul (vx (boxHalfSize u) - vx (rayOrigin u)) (xinv (vx d)) = Some t1x /\
    xmul (vy (boxHalfSize u) - vy (rayOrigin u)) (xinv (vy d)) = Some t1y /\
    xmul (vz (boxHalfSize u) - vz (rayOrigin u)) (xinv (vz d)) = Some t1z /\
    a = xmax (xmax (xmin t0x t1x) (xmin t0y t1y)) (xmin t0z t1z) /\
    b = xmin (xmin (xmax t0x t1x) (xmax t0y t1y)) (xmax t0z t1z).
Proof.
  intros H. unfold slabs, xvmul, xvinv in H.
  cbn [xx xy xz vx vy vz vsub vneg] in H.
  destruct (xmul (- vx (boxHalfSize u) - vx (rayOrigin u)) (xinv (vx d)))
    as [t0x|]; [|cbn in H; discriminate H].
  destruct (xmul (- vy (boxHalfSize u) - vy (rayOrigin u)) (xinv (vy d)))
    as [t0y|]; [|cbn in H; discriminate H].
  destruct (xmul (- vz (boxHalfSize u) - vz (rayOrigin u)) (xinv (vz d)))
    as [t0z|]; [|cbn in H; discriminate H].
  destruct (xmul (vx (boxHalfSize u) - vx (rayOrigin u)) (xinv (vx d)))
    as [t1x|]; [|cbn in H; discriminate H].
  destruct (xmul (vy (boxHalfSize u) - vy (rayOrigin u)) (xinv (vy d)))
    as [t1y|]; [|cbn in H; discriminate H].
  destruct (xmul (vz (boxHalfSize u) - vz (rayOrigin u)) (xinv (vz d)))
    as [t1z|]; [|cbn in H; discriminate H].
  cbn in H. injection H as <- <-.
  exists t0x, t0y, t0z, t1x, t1y, t1z. repeat split; reflexivity.
Qed.

(** The slab method is exact: the parameters within [tmin, tmax] are those
    of the points of the ray that lie in the box. *)
Lemma slabs_exact u d a b t :
  0 <= vx (boxHalfSize u) -> 0 <= vy (boxHalfSize u) ->
  0 <= vz (boxHalfSize u) ->
  slabs u d = Some (a, b) ->
  (xle a (Finite t) /\ xle (Finite t) b
   <-> insideBox (boxHalfSize u) (vadd (rayOrigin u) (vscale d t))).
Proof.
  intros Hx Hy Hz Hs.
  destruct (slabs_inv _ _ _ _ Hs)
    as (t0x & t0y & t0z & t1x & t1y & t1z
        & E0x & E0y & E0z & E1x & E1y & E1z & -> & ->).
  pose proof (axis_between _ _ _ _ _ t Hx E0x E1x) as Ax.
  pose proof (axis_between _ _ _ _ _ t Hy E0y E1y) as Ay.
  pose proof (axis_between _ _ _ _ _ t Hz E0z E1z) as Az.
  unfold insideBox. cbn [vadd vscale vx vy vz]. split.
  - intros [Hlo Hhi].
    apply xmax_ub in Hlo. destruct Hlo as [Hlo Hloz].
    apply xmax_ub in Hlo. destruct Hlo as [Hlox Hloy].
    apply xmin_lb in Hhi. destruct Hhi as [Hhi Hhiz].
    apply xmin_lb in Hhi. destruct Hhi as [Hhix Hhiy].
    split; [apply Ax; split; assumption|].
    split; [apply Ay; split; assumption | apply Az; split; assumption].
  - intros (Bx & By & Bz).
    apply Ax in Bx. apply Ay in By. apply Az in Bz.
    split.
    + apply xmax_lub; [apply xmax_lub|]; tauto.
    + apply xmin_glb; [apply xmin_glb|]; tauto.
Qed.

(** *** What a marched fragment went through *)

Lemma march_visited u rayDir tmin dt n :
  forall i maxColor visited m visited',
  march u rayDir tmin dt n i maxColor visited = Some (m, visited') ->
  visited' = visited ++ map (samplePos u rayDir tmin dt) (seq i n).
Proof.
  induction n as [|n IH]; intros i maxColor visited m visited' H.
  - cbn in H. injection H as _ <-. cbn. rewrite app_nil_r. reflexivity.
  - cbn [march] in H.
    destruct (sample u (samplePos u rayDir tmin dt i)) as [c|];
      [|discriminate H].
    cbn [bind] in H. apply IH in H. rewrite H, <- app_assoc. reflexivity.
Qed.

(** A fragment that [main] colours: its ray, its interval and its loop. *)
Lemma main_inv u vPosition c visited :
  main u vPosition = Some (FragColor c, visited) ->
  exists rayDir tmin tmax m,
    normalize (vsub vPosition (rayOrigin u)) = Some rayDir /\
    slabs u rayDir = Some (Finite tmin, Finite tmax) /\
    0 <= tmax /\ tmin <= tmax /\
    march u rayDir tmin ((tmax - tmin) / 200) 200 0 (Vec3 0 0 0) []
      = Some (m, visited) /\
    c = Vec4 m 0.4.
Proof.
  intros H. unfold main in H.
  destruct (normalize (vsub vPosition (rayOrigin u))) as [rayDir|];
    [|discriminate H].
  cbn [bind] in H.
  destruct (slabs u rayDir) as [[a b]|] eqn:Hs; [|discriminate H].
  cbn [bind fst snd] in H.
  destruct (xlt_dec b (Finite 0)) as [|H0]; [discriminate H|].
  destruct (xlt_dec b a) as [|Hab]; [discriminate H|].
  destruct a as [tmin| |]; try discriminate H.
  destruct b as [tmax| |]; try discriminate H.
  unfold steps in H. rewrite INR_200 in H.
  destruct (march u rayDir tmin ((tmax - tmin) / 200) 200 0 (Vec3 0 0 0) [])
    as [[m vis]|] eqn:Hm; [|discriminate H].
  cbn in H. injection H as <- <-. cbn in H0, Hab.
  exists rayDir, tmin, tmax, m.
  repeat split; first [reflexivity | assumption | lra].
Qed.

Lemma sample_index_in_range (tmin tmax : R) i :
  tmin <= tmax -> (i < 200)%nat ->
  tmin <= tmin + (tmax - tmin) / 200 * INR i <= tmax - (tmax - tmin) / 200.
Proof.
  intros Hle Hi.
  assert (Hi0 : 0 <= INR i) by apply pos_INR.
  assert (Hi1 : INR i <= 199).
  { replace 199 with (INR 199) by (rewrite INR_IZR_INZ; reflexivity).
    apply le_INR. lia. }
  assert (Hdt : 0 <= (tmax - tmin) / 200) by lra.
  split; nra.
Qed.

Lemma samples_in_box u vPosition c visited :
  0 <= vx (boxHalfSize u) -> 0 <= vy (boxHalfSize u) ->
  0 <= vz (boxHalfSize u) ->
  main u vPosition = Some (FragColor c, visited) ->
  length visited = 200%nat /\ Forall (insideBox (boxHalfSize u)) visited.
Proof.
  intros Hx Hy Hz H.
  destruct (main_inv _ _ _ _ H)
    as (rayDir & tmin & tmax & m & _ & Hs & Htmax & Hle & Hm & _).
  apply march_visited in Hm. cbn [app] in Hm. subst visited. split.
  - rewrite length_map, length_seq. reflexivity.
  - apply Forall_forall. intros p Hp. apply in_map_iff in Hp.
    destruct Hp as [i [<- Hi]]. apply in_seq in Hi.
    unfold samplePos.
    apply (slabs_exact u rayDir (Finite tmin) (Finite tmax)); try assumption.
    rewrite !xle_finite.
    pose proof (sample_index_in_range tmin tmax i Hle ltac:(lia)). lra.
Qed.

(** X15: the shader never evaluates the heat field outside the box.  The
    points visited for a fragment that gets a colour are 200 points of the
    box of half extents [boxHalfSize] (taken non-negative). *)
Theorem samples_lie_in_the_box u vPosition c visited :
  0 <= vx (boxHalfSize u) -> 0 <= vy (boxHalfSize u) ->
  0 <= vz (boxHalfSize u) ->
  main u vPosition = Some (FragColor c, visited) ->
  length visited = 200%nat /\ Forall (insideBox (boxHalfSize u)) visited.
Proof. apply samples_in_box. Qed.

(** *** Rays that meet the box *)

(** X16: no ray that meets the box is discarded.  If some point of the ray,
    at a parameter [t >= 0], lies in the box, then the fragment gets a
    colour (the uniforms being as the program sets them, and the slab
    parameters defined). *)
Theorem rays_into_the_box_are_marched u vPosition rayDir a b t :
  0 <= u_effectiveHeat u -> baseTemp u < plasmaThreshold u ->
  hDecayScale u <> 0 -> vDecayScale u <> 0 ->
  0 <= vx (boxHalfSize u) -> 0 <= vy (boxHalfSize u) ->
  0 <= vz (boxHalfSize u) ->
  normalize (vsub vPosition (rayOrigin u)) = Some rayDir ->
  slabs u rayDir = Some (a, b) ->
  0 <= t ->
  insideBox (boxHalfSize u) (vadd (rayOrigin u) (vscale rayDir t)) ->
  exists c visited, main u vPosition = Some (FragColor c, visited).
Proof.
  intros Hheat Hb Hh Hv Hx Hy Hz Hn Hs Ht Hin.
  apply (slabs_exact u rayDir a b t Hx Hy Hz Hs) in Hin.
  destruct Hin as [Hlo Hhi].
  assert (H0 : ~ xlt b (Finite 0)).
  { apply (xge_trans_finite b t 0) in Hhi; [exact Hhi | exact Ht]. }
  assert (Hab : ~ xlt b a) by (apply xle_through with t; assumption).
  destruct (slabs_finite _ _ _ _ _ Hn Hs H0 Hab)
    as [tmin [tmax [-> [-> [Htmax Hle]]]]].
  destruct (march_channel_max u Hheat Hb Hh Hv vPosition rayDir tmin tmax
              Hn Hs Htmax Hle) as [colors [m [_ [_ [_ [_ [Hmain _]]]]]]].
  eexists. eexists. exact Hmain.
Qed.

(** The vertical ray through the centre of the box, from 100 m below, for
    any heat that is not negative. *)
Lemma vertical_ray_is_marched heat :
  0 <= heat ->
  let u := mkUniforms heat 300 3000 3 5 (Vec3 0 (-100) 0) (Vec3 50 5 50) in
  normalize (vsub (Vec3 0 (-95) 0) (rayOrigin u))
    = Some (Vec3 (0 / 5) (5 / 5) (0 / 5)) /\
  slabs u (Vec3 (0 / 5) (5 / 5) (0 / 5))
    = Some (Finite ((-5 - -100) * (1 / (5 / 5))),
            Finite ((5 - -100) * (1 / (5 / 5)))) /\
  exists c visited, main u (Vec3 0 (-95) 0) = Some (FragColor c, visited).
Proof.
  intros Hheat u.
  assert (Hn : normalize (vsub (Vec3 0 (-95) 0) (rayOrigin u))
               = Some (Vec3 (0 / 5) (5 / 5) (0 / 5))).
  { replace (vsub (Vec3 0 (-95) 0) (rayOrigin u)) with (Vec3 0 5 0)
      by (unfold vsub; cbn; f_equal; lra).
    apply normalize_0_5_0. }
  assert (Hs : slabs u (Vec3 (0 / 5) (5 / 5) (0 / 5))
               = Some (Finite ((-5 - -100) * (1 / (5 / 5))),
                       Finite ((5 - -100) * (1 / (5 / 5))))).
  { unfold slabs, xvmul, xvinv, xinv, xvmin, xvmax, xmin, xmax, vsub, vneg.
    cbn [vx vy vz boxHalfSize rayOrigin u].
    decide_reals. reflexivity. }
  split; [exact Hn|]. split; [exact Hs|].
  destruct (march_channel_max u Hheat ltac:(cbn; lra) ltac:(cbn; lra)
              ltac:(cbn; lra) (Vec3 0 (-95) 0) _ _ _ Hn Hs
              ltac:(lra) ltac:(lra))
    as [colors [m [_ [_ [_ [_ [Hmain _]]]]]]].
  eexists. eexists. exact Hmain.
Qed.

Lemma samples_lie_in_the_box_witness :
  exists c visited,
    main (mkUniforms 0 300 3000 3 5 (Vec3 0 (-100) 0) (Vec3 50 5 50))
         (Vec3 0 (-95) 0) = Some (FragColor c, visited) /\
    length visited = 200%nat /\ Forall (insideBox (Vec3 50 5 50)) visited.
Proof.
  destruct (vertical_ray_is_marched 0) as [_ [_ [c [visited H]]]]; [lra|].
  exists c, visited. split; [exact H|].
  apply (samples_lie_in_the_box _ _ c visited) in H; try (cbn; lra).
  exact H.
Defined.

Lemma rays_into_the_box_are_marched_witness :
  exists c visited,
    main (mkUniforms 0 300 3000 3 5 (Vec3 0 (-100) 0) (Vec3 50 5 50))
         (Vec3 0 (-95) 0) = Some (FragColor c, visited).
Proof.
  destruct (vertical_ray_is_marched 0) as [Hn [Hs _]]; [lra|].
  apply (rays_into_the_box_are_marched _ _ _ _ _ 100) with (8 := Hn) (9 := Hs);
    try (cbn; lra).
  unfold insideBox. cbn. lra.
Defined.

(** *** Spacing *)

(** X17: for a fragment that gets a colour, the visited points are the 200
    points [rayOrigin + rayDir * (tmin + i * dt)], [i = 0..199], with
    [dt = (tmax - tmin) / 200]: the first is the point where the ray enters
    the box, each lies [dt] metres after the one before, and all are at
    least [dt] before the point where the ray leaves the box, which is never
    sampled unless the interval is a single point. *)
Theorem samples_are_evenly_spaced u vPosition c visited :
  main u vPosition = Some (FragColor c, visited) ->
  exists rayDir tmin tmax,
    let dt := (tmax - tmin) / 200 in
    let P := samplePos u rayDir tmin dt in
    slabs u rayDir = Some (Finite tmin, Finite tmax) /\
    length3 rayDir = 1 /\ 0 <= dt /\
    visited = map P (seq 0 200) /\
    P 0%nat = vadd (rayOrigin u) (vscale rayDir tmin) /\
    (forall i, length3 (vsub (P (S i)) (P i)) = dt) /\
    (forall i, (i < 200)%nat -> tmin + dt * INR i <= tmax - dt).
Proof.
  intros H.
  destruct (main_inv _ _ _ _ H)
    as (rayDir & tmin & tmax & m & Hn & Hs & Htmax & Hle & Hm & _).
  exists rayDir, tmin, tmax. cbv zeta.
  assert (Hdt : 0 <= (tmax - tmin) / 200) by lra.
  split; [exact Hs|]. split; [apply normalize_unit with (1 := Hn)|].
  split; [exact Hdt|]. split; [|split; [|split]].
  - apply march_visited in Hm. exact Hm.
  - unfold samplePos. cbn [INR]. f_equal. f_equal. lra.
  - intros i.
    replace (vsub (samplePos u rayDir tmin ((tmax - tmin) / 200) (S i))
                  (samplePos u rayDir tmin ((tmax - tmin) / 200) i))
      with (vscale rayDir ((tmax - tmin) / 200)).
    + rewrite length3_vscale by exact Hdt.
      rewrite (normalize_unit _ _ Hn). lra.
    + unfold samplePos, vsub, vadd, vscale. cbn [vx vy vz].
      rewrite S_INR. f_equal; ring.
  - intros i Hi. apply sample_index_in_range; assumption.
Qed.

Lemma samples_are_evenly_spaced_witness :
  exists visited rayDir tmin tmax,
    visited = map (samplePos
                     (mkUniforms 0 300 3000 3 5 (Vec3 0 (-100) 0)
                                 (Vec3 50 5 50))
                     rayDir tmin ((tmax - tmin) / 200))
                  (seq 0 200).
Proof.
  destruct (vertical_ray_is_marched 0) as [_ [_ [c [visited H]]]]; [lra|].
  destruct (samples_are_evenly_spaced _ _ c visited H)
    as (rayDir & tmin & tmax & _ & _ & _ & Hv & _).
  exists visited, rayDir, tmin, tmax. exact Hv.
Defined.

(** *** The colour depends on the direction only *)

Lemma normalize_vscale v k : 0 < k -> normalize (vscale v k) = normalize v.
Proof.
  intros Hk. destruct (Req_dec_T (length3 v) 0) as [Hz|Hnz].
  - rewrite (normalize_zero_length v) by exact Hz.
    apply normalize_zero_length. rewrite length3_vscale by lra. rewrite Hz. lra.
  - rewrite !normalize_defined;
      [|exact Hnz|rewrite length3_vscale by lra; nra].
    rewrite length3_vscale by lra. destruct v as [a b c]. cbn [vscale vx vy vz].
    f_equal. f_equal; field; split; lra.
Qed.

(** X18: two fragments on the same ray from the ray origin get the same
    result: moving a fragment's position along its ray, to
    [rayOrigin + k * (vPosition - rayOrigin)] with [k > 0], changes
    neither the fragment nor the points visited. *)
Theorem fragments_on_one_ray_agree u vPosition k :
  0 < k ->
  main u (vadd (rayOrigin u) (vscale (vsub vPosition (rayOrigin u)) k))
    = main u vPosition.
Proof.
  intros Hk. unfold main.
  replace (vsub (vadd (rayOrigin u) (vscale (vsub vPosition (rayOrigin u)) k))
                (rayOrigin u))
    with (vscale (vsub vPosition (rayOrigin u)) k).
  - rewrite normalize_vscale by exact Hk. reflexivity.
  - unfold vsub, vadd, vscale. cbn [vx vy vz]. f_equal; ring.
Qed.

Lemma fragments_on_one_ray_agree_witness :
  main defaultUniforms
       (vadd (Vec3 0 0 0) (vscale (vsub (Vec3 3 4 12) (Vec3 0 0 0)) 2))
  = main defaultUniforms (Vec3 3 4 12).
Proof.
  apply (fragments_on_one_ray_agree defaultUniforms (Vec3 3 4 12) 2). lra.
Defined.

(** *** What the marched colour can be *)

(** The loop folds [vmax] over colours sampled at its points. *)
Lemma march_fold_on u rayDir tmin dt (P : vec3 -> Prop) n :
  forall i maxColor visited m visited',
  (forall j c, (i <= j < i + n)%nat ->
     sample u (samplePos u rayDir tmin dt j) = Some c -> P c) ->
  march u rayDir tmin dt n i maxColor visited = Some (m, visited') ->
  exists colors,
    length colors = n /\ Forall P colors /\ m = fold_left vmax colors maxColor.
Proof.
  induction n as [|n IH]; intros i maxColor visited m visited' HP H.
  - cbn in H. injection H as <- _. exists []. repeat split. constructor.
  - cbn [march] in H.
    destruct (sample u (samplePos u rayDir tmin dt i)) as [c|] eqn:Hc;
      [|discriminate H].
    cbn [bind] in H. apply IH in H.
    + destruct H as [cs [Hlen [HF ->]]]. exists (c :: cs).
      split; [cbn; rewrite Hlen; reflexivity|].
      split; [|reflexivity].
      constructor; [|exact HF]. apply (HP i); [lia | exact Hc].
    + intros j c' Hj. apply HP. lia.
Qed.

Lemma vmax_rampColor a b : rampColor a -> rampColor b -> rampColor (vmax a b).
Proof.
  intros (Ha1 & Ha2 & Ha3) (Hb1 & Hb2 & Hb3). unfold rampColor, vmax. cbn.
  rewrite Ha2, Hb2, Rmax_idem.
  repeat split; try first [apply Rmax_lub; lra
                          |eapply Rle_trans; [|apply Rmax_l]; lra].
Qed.

Lemma sample_inv u p c :
  sample u p = Some c ->
  hDecayScale u <> 0 /\ vDecayScale u <> 0 /\
  sampleColor u (baseTemp u
                 + u_effectiveHeat u
                   * exp (- length_xz p / hDecayScale u)
                   * exp (- ((vy p + 5) / vDecayScale u)) * 1e6) = Some c.
Proof.
  intros H. unfold sample, temperature, fdiv in H.
  destruct (Req_dec_T (hDecayScale u) 0) as [|Hh]; [discriminate H|].
  destruct (Req_dec_T (vDecayScale u) 0) as [|Hv]; [discriminate H|].
  cbn [bind] in H. repeat split; assumption.
Qed.

Lemma sample_rampColor u p c :
  0 <= u_effectiveHeat u -> baseTemp u < plasmaThreshold u ->
  sample u p = Some c -> rampColor c.
Proof.
  intros Hheat Hb H. apply sample_inv in H. destruct H as [_ [_ H]].
  rewrite sampleColor_is_color in H.
  match type of H with
  | App.color ?w ?T = _ =>
      destruct (color_is_rampColor w T) as [c' [Hc' Hr]]
  end.
  - exact Hb.
  - cbn [App.baseTemp].
    pose proof (exp_pos (- length_xz p / hDecayScale u)).
    pose proof (exp_pos (- ((vy p + 5) / vDecayScale u))).
    assert (0 <= u_effectiveHeat u * exp (- length_xz p / hDecayScale u))
      by nra.
    assert (0 <= u_effectiveHeat u * exp (- length_xz p / hDecayScale u)
                 * exp (- ((vy p + 5) / vDecayScale u))) by nra.
    lra.
  - rewrite Hc' in H. injection H as <-. exact Hr.
Qed.

(** X19: with a heat that is not negative and [baseTemp < plasmaThreshold],
    the colour the ray marcher writes has its red and blue channels in
    [0, 1], no green, and alpha 0.4. *)
Theorem marched_color_is_displayable u vPosition c visited :
  0 <= u_effectiveHeat u -> baseTemp u < plasmaThreshold u ->
  main u vPosition = Some (FragColor c, visited) ->
  rampColor (rgb c) /\ alpha c = 0.4.
Proof.
  intros Hheat Hb H.
  destruct (main_inv _ _ _ _ H)
    as (rayDir & tmin & tmax & m & _ & _ & _ & _ & Hm & ->).
  split; [|reflexivity]. cbn [rgb].
  apply (march_fold_on u rayDir tmin _ rampColor) in Hm.
  - destruct Hm as [colors [_ [HF ->]]].
    apply fold_vmax_closed; [apply vmax_rampColor| |exact HF].
    unfold rampColor. cbn. lra.
  - intros j c' _ Hc'. apply sample_rampColor with (3 := Hc'); assumption.
Qed.

Lemma marched_color_is_displayable_witness :
  exists c, rampColor (rgb c) /\ alpha c = 0.4.
Proof.
  destruct (vertical_ray_is_marched 0.001) as [_ [_ [c [visited H]]]]; [lra|].
  exists c.
  apply (marched_color_is_displayable _ _ c visited) in H; try (cbn; lra).
  exact H.
Defined.

(** Where the volume is cool, the sample of a point at or above its bottom
    is a ramp colour whose parameter the heat bounds. *)
Lemma cool_sample u p c :
  0 <= u_effectiveHeat u ->
  0 < hDecayScale u -> 0 < vDecayScale u ->
  baseTemp u + u_effectiveHeat u * 1e6 < plasmaThreshold u ->
  -5 <= vy p ->
  sample u p = Some c ->
  exists t, c = Vec3 t 0 (1 - t) /\
    0 <= t <= u_effectiveHeat u * 1e6 / (plasmaThreshold u - baseTemp u).
Proof.
  intros Hheat Hh Hv Hcool Hy H. apply sample_inv in H.
  destruct H as [_ [_ H]].
  set (hf := exp (- length_xz p / hDecayScale u)) in *.
  set (vf := exp (- ((vy p + 5) / vDecayScale u))) in *.
  assert (Hhf : 0 < hf <= 1).
  { split; [apply exp_pos|]. rewrite <- exp_0. apply exp_le.
    pose proof (sqrt_pos (vx p * vx p + vz p * vz p)) as Hd.
    fold (length_xz p) in Hd.
    assert (0 < / hDecayScale u) by (apply Rinv_0_lt_compat; exact Hh).
    unfold Rdiv. nra. }
  assert (Hvf : 0 < vf <= 1).
  { split; [apply exp_pos|]. rewrite <- exp_0. apply exp_le.
    assert (0 < / vDecayScale u) by (apply Rinv_0_lt_compat; exact Hv).
    unfold Rdiv. nra. }
  assert (Hl0 : 0 <= u_effectiveHeat u * hf * vf).
  { apply Rmult_le_pos; [apply Rmult_le_pos|]; lra. }
  assert (Hl1 : u_effectiveHeat u * hf * vf <= u_effectiveHeat u).
  { assert (u_effectiveHeat u * hf <= u_effectiveHeat u * 1)
      by (apply Rmult_le_compat_l; lra).
    assert (u_effectiveHeat u * hf * vf <= u_effectiveHeat u * hf * 1).
    { apply Rmult_le_compat_l; [|lra]. apply Rmult_le_pos; lra. }
    lra. }
  set (T := baseTemp u + u_effectiveHeat u * hf * vf * 1e6) in *.
  assert (Hd : 0 < plasmaThreshold u - baseTemp u) by lra.
  unfold sampleColor in H.
  destruct (Rge_dec T (plasmaThreshold u)) as [Hge|_]; [unfold T in Hge; lra|].
  rewrite fdiv_defined in H by lra. cbn [bind] in H. injection H as <-.
  eexists. split; [reflexivity|].
  assert (Hi : 0 < / (plasmaThreshold u - baseTemp u))
    by (apply Rinv_0_lt_compat; exact Hd).
  unfold Rdiv, T. split.
  - apply Rmult_le_pos; lra.
  - apply Rmult_le_compat_r; lra.
Qed.

(** X20: a volume too cool for plasma shows none.  When
    [baseTemp + effectiveHeat * 1e6 < plasmaThreshold] (heat not negative,
    decay scales positive, box no lower than the bottom [y = -5] of the heat
    field), every point visited for a fragment that gets a colour is sampled
    in the ramp band, and the red channel written is at most
    [effectiveHeat * 1e6 / (plasmaThreshold - baseTemp)], which is less
    than 1. *)
Theorem cool_volume_shows_no_plasma u vPosition c visited :
  0 <= u_effectiveHeat u ->
  0 < hDecayScale u -> 0 < vDecayScale u ->
  baseTemp u + u_effectiveHeat u * 1e6 < plasmaThreshold u ->
  0 <= vx (boxHalfSize u) -> 0 <= vy (boxHalfSize u) <= 5 ->
  0 <= vz (boxHalfSize u) ->
  main u vPosition = Some (FragColor c, visited) ->
  let bound := u_effectiveHeat u * 1e6 / (plasmaThreshold u - baseTemp u) in
  Forall (fun p => exists t, sample u p = Some (Vec3 t 0 (1 - t))
                             /\ 0 <= t <= bound) visited /\
  vx (rgb c) <= bound /\ bound < 1.
Proof.
  intros Hheat Hh Hv Hcool Hx [Hy Hy5] Hz H bound.
  assert (Hd : 0 < plasmaThreshold u - baseTemp u) by lra.
  assert (Hbound : 0 <= bound < 1).
  { unfold bound. split.
    - apply Rmult_le_pos; [lra|]. left. apply Rinv_0_lt_compat. exact Hd.
    - apply Rmult_lt_reg_r with (plasmaThreshold u - baseTemp u); [exact Hd|].
      unfold Rdiv. rewrite Rmult_assoc, Rinv_l by lra. lra. }
  destruct (samples_in_box u vPosition c visited Hx Hy Hz H) as [Hpts Hbox].
  destruct (main_inv _ _ _ _ H)
    as (rayDir & tmin & tmax & m & _ & _ & _ & _ & Hm & ->).
  pose proof (march_visited _ _ _ _ _ _ _ _ _ _ Hm) as Hvis.
  cbn [app] in Hvis.
  assert (Hlow : forall j, (j < 200)%nat ->
            -5 <= vy (samplePos u rayDir tmin ((tmax - tmin) / 200) j)).
  { intros j Hj. rewrite Forall_forall in Hbox.
    destruct (Hbox (samplePos u rayDir tmin ((tmax - tmin) / 200) j))
      as (_ & [Hlo _] & _); [|lra].
    rewrite Hvis. apply in_map. apply in_seq. lia. }
  assert (Hdef : forall j, (j < 200)%nat -> exists c',
            sample u (samplePos u rayDir tmin ((tmax - tmin) / 200) j)
              = Some c').
  { intros j Hj.
    destruct (sample u (samplePos u rayDir tmin ((tmax - tmin) / 200) j))
      as [c'|] eqn:Hc'; [eexists; reflexivity|].
    exfalso. clear - Hm Hc' Hj.
    assert (Hnone : forall n i mc vis, (i <= j < i + n)%nat ->
              march u rayDir tmin ((tmax - tmin) / 200) n i mc vis = None).
    { induction n as [|n IH]; intros i mc vis Hr; [lia|].
      cbn [march]. destruct (Nat.eq_dec i j) as [->|Hne].
      - rewrite Hc'. reflexivity.
      - destruct (sample u (samplePos u rayDir tmin ((tmax - tmin) / 200) i));
          [|reflexivity].
        cbn [bind]. apply IH. lia. }
    rewrite Hnone in Hm by lia. discriminate Hm. }
  split; [|split; [|apply Hbound]].
  - rewrite Hvis. apply Forall_forall. intros p Hp.
    apply in_map_iff in Hp. destruct Hp as [j [<- Hj]]. apply in_seq in Hj.
    destruct (Hdef j ltac:(lia)) as [c' Hc'].
    destruct (cool_sample u _ c' Hheat Hh Hv Hcool (Hlow j ltac:(lia)) Hc')
      as [t [-> Ht]].
    exists t. split; [exact Hc' | exact Ht].
  - cbn [rgb].
    apply (march_fold_on u rayDir tmin _ (fun c' => vx c' <= bound)) in Hm.
    + destruct Hm as [colors [_ [HF ->]]].
      apply (fold_vmax_closed (fun c' => vx c' <= bound)); [| |exact HF].
      * intros a b Ha Hb'. cbn. apply Rmax_lub; assumption.
      * cbn. apply Hbound.
    + intros j c' Hj Hc'.
      destruct (cool_sample u _ c' Hheat Hh Hv Hcool (Hlow j ltac:(lia)) Hc')
        as [t [-> Ht]].
      cbn. apply Ht.
Qed.

Lemma cool_volume_shows_no_plasma_witness :
  exists c visited,
    main (mkUniforms 0.001 300 3000 3 5 (Vec3 0 (-100) 0) (Vec3 50 5 50))
         (Vec3 0 (-95) 0) = Some (FragColor c, visited) /\
    vx (rgb c) <= 0.001 * 1e6 / (3000 - 300).
Proof.
  destruct (vertical_ray_is_marched 0.001) as [_ [_ [c [visited H]]]]; [lra|].
  exists c, visited. split; [exact H|].
  apply (cool_volume_shows_no_plasma _ _ c visited) in H; try (cbn; lra).
  destruct H as [_ [H _]]. exact H.
Defined.

End MarcherGeometry.

(** ** The graph overlay *)

Section Graph.

Import GraphOverlay.

Lemma Math_min_le x xs : Math_min x xs <= x /\ Forall (Rle (Math_min x xs)) xs.
Proof.
  unfold Math_min. revert x. induction xs as [|y ys IH]; intros x; cbn.
  - split; [lra | constructor].
  - destruct (IH (Rmin x y)) as [H1 H2].
    pose proof (Rmin_l x y). pose proof (Rmin_r x y).
    split; [lra|]. constructor; [lra | exact H2].
Qed.

Lemma Math_max_ge x xs : x <= Math_max x xs /\ Forall (Rge (Math_max x xs)) xs.
Proof.
  unfold Math_max. revert x. induction xs as [|y ys IH]; intros x; cbn.
  - split; [lra | constructor].
  - destruct (IH (Rmax x y)) as [H1 H2].
    pose proof (Rmax_l x y). pose proof (Rmax_r x y).
    split; [lra|]. constructor; [lra | exact H2].
Qed.

Lemma timeRange_positive t0 tEnd : t0 <= tEnd -> 0 < timeRange t0 tEnd.
Proof.
  intros H. unfold timeRange.
  destruct (Req_dec_T ((tEnd - t0) / 1000) 0) as [E|N]; lra.
Qed.

Lemma timeRange_nonzero t0 tEnd : timeRange t0 tEnd <> 0.
Proof.
  unfold timeRange.
  destruct (Req_dec_T ((tEnd - t0) / 1000) 0) as [E|N]; [lra | exact N].
Qed.

Lemma strokePath_targets pt h :
  forall i c, In c (strokePath pt i h) -> exists d, In d h /\ target c = pt d.
Proof.
  induction h as [|d h IH]; intros i c Hc; [destruct Hc|].
  cbn [strokePath] in Hc. destruct Hc as [<-|Hc].
  - exists d. split; [left; reflexivity|].
    destruct (Nat.eqb i 0); cbn; destruct (pt d); reflexivity.
  - destruct (IH _ _ Hc) as [d' [Hd' Ht]]. exists d'.
    split; [right; exact Hd' | exact Ht].
Qed.

Lemma strokePath_length pt h : forall i, length (strokePath pt i h) = length h.
Proof.
  induction h as [|d h IH]; intros i; [reflexivity|].
  cbn. rewrite IH. reflexivity.
Qed.

Lemma record_split now history s :
  record now history s
  = filter (fun d => if Rle_dec (now - time d) historyDuration
                     then true else false) history
    ++ [mkEntry now (speed s) (effectiveHeat s)].
Proof.
  unfold record. rewrite filter_app. f_equal. cbn.
  destruct (Rle_dec (now - now) historyDuration) as [_|N]; [reflexivity|].
  exfalso. apply N. unfold historyDuration. lra.
Qed.

(** X21: the history holds the last minute.  After the effect the history
    is the earlier history filtered, followed by the sample just taken: the
    earlier samples no older than 60000 ms are kept, in the order and the
    number in which they were, and the others are dropped.  So no sample of
    the history is older than 60000 ms, a history with no older sample is
    kept whole, and the history is never empty. *)
Theorem history_holds_the_last_minute now history s :
  let recent := fun d => if Rle_dec (now - time d) 60000
                         then true else false in
  record now history s
    = filter recent history ++ [mkEntry now (speed s) (effectiveHeat s)] /\
  (forall d, recent d = true <-> now - time d <= 60000) /\
  (forall d, In d (filter recent history) <->
             In d history /\ now - time d <= 60000) /\
  (forall d, In d (record now history s) -> now - time d <= 60000) /\
  (Forall (fun d => now - time d <= 60000) history ->
   filter recent history = history) /\
  record now history s <> [].
Proof.
  intros recent. rewrite record_split.
  change (fun d => if Rle_dec (now - time d) historyDuration
                   then true else false) with recent.
  assert (Hrecent : forall d, recent d = true <-> now - time d <= 60000).
  { intros d. unfold recent.
    destruct (Rle_dec (now - time d) 60000); split; intros H;
      first [reflexivity | assumption | discriminate H | contradiction]. }
  split; [reflexivity|]. split; [exact Hrecent|].
  split; [|split; [|split]].
  - intros d. rewrite filter_In, Hrecent. reflexivity.
  - intros d Hd. apply in_app_or in Hd. destruct Hd as [Hd|[<-|[]]].
    + apply filter_In in Hd. apply Hrecent, Hd.
    + cbn. lra.
  - intros HF. induction HF as [|d h Hd _ IH]; [reflexivity|].
    cbn [filter]. apply Hrecent in Hd. rewrite Hd, IH. reflexivity.
  - intros E. apply app_eq_nil in E. destruct E as [_ E]. discriminate E.
Qed.

(** X22: with a canvas, the effect always draws, and it never divides by
    zero: the time range is not 0 even when all samples bear the same time,
    the heat range is at least 1 even when all heats are 0; and each curve
    has one path command per sample of the history. *)
Theorem graph_is_always_drawn width height now history s :
  exists d,
    useEffect (Some (width, height)) now history s
      = (record now history s, Some d) /\
    length (speedCurve d) = length (record now history s) /\
    length (heatCurve d) = length (record now history s) /\
    (forall t0 tEnd, timeRange t0 tEnd <> 0) /\
    1 <= effectiveHeatMax (record now history s) - 0.
Proof.
  unfold useEffect, draw.
  destruct (map time (record now history s)) as [|t ts] eqn:E.
  - exfalso. apply map_eq_nil in E. rewrite record_split in E.
    apply app_eq_nil in E. destruct E as [_ E]. discriminate E.
  - eexists. split; [reflexivity|]. cbn [speedCurve heatCurve].
    rewrite !strokePath_length. repeat split.
    + apply timeRange_nonzero.
    + unfold effectiveHeatMax.
      match goal with
      | |- 1 <= Math_max 1 ?xs - 0 => destruct (Math_max_ge 1 xs) as [H _]
      end.
      lra.
Qed.

Lemma unit_fraction a b : 0 <= a <= b -> 0 < b -> 0 <= a / b <= 1.
Proof.
  intros [H0 H1] Hb.
  assert (Hi : 0 < / b) by (apply Rinv_0_lt_compat; exact Hb).
  unfold Rdiv. split.
  - apply Rmult_le_pos; lra.
  - apply Rmult_le_reg_r with b; [exact Hb|].
    rewrite Rmult_assoc, Rinv_l by lra. lra.
Qed.

Lemma timeToX_on_canvas width t0 tEnd time :
  0 <= width -> t0 <= time <= tEnd ->
  0 <= timeToX width t0 tEnd time <= width.
Proof.
  intros Hw [Hlo Hhi]. unfold timeToX, timeRange.
  destruct (Req_dec_T ((tEnd - t0) / 1000) 0) as [E|N].
  - assert (time = t0) by lra. subst time.
    replace ((t0 - t0) / 1000 / 1 * width) with 0 by (unfold Rdiv; lra).
    lra.
  - assert (Hf : 0 <= (time - t0) / 1000 / ((tEnd - t0) / 1000) <= 1)
      by (apply unit_fraction; lra).
    nra.
Qed.

(** X23: the curves stay on the canvas.  For a canvas of non-negative size
    and a history whose speeds lie in [0, 8000] and whose heats are not
    negative, every point of the speed curve and of the heat curve has
    [0 <= x <= width] and [0 <= y <= height]. *)
Theorem curves_stay_on_the_canvas width height history d :
  0 <= width -> 0 <= height ->
  Forall (fun e => 0 <= e_speed e <= 8000 /\ 0 <= e_effectiveHeat e) history ->
  draw width height history = Some d ->
  forall c, In c (speedCurve d) \/ In c (heatCurve d) ->
    0 <= fst (target c) <= width /\ 0 <= snd (target c) <= height.
Proof.
  intros Hw Hh HF Hd c Hc. unfold draw in Hd.
  destruct (map time history) as [|t ts] eqn:Et; [discriminate Hd|].
  injection Hd as <-. cbn [speedCurve heatCurve] in Hc.
  assert (Htimes : forall e, In e history ->
            Math_min t ts <= time e <= Math_max t ts).
  { intros e He. apply (in_map time) in He. rewrite Et in He.
    destruct (Math_min_le t ts) as [Hm1 Hm2].
    destruct (Math_max_ge t ts) as [HM1 HM2].
    rewrite Forall_forall in Hm2, HM2.
    destruct He as [<-|He].
    - lra.
    - specialize (Hm2 _ He). specialize (HM2 _ He). lra. }
  rewrite Forall_forall in HF.
  destruct Hc as [Hc|Hc]; apply strokePath_targets in Hc;
    destruct Hc as [e [He ->]]; cbn [fst snd];
    (split; [apply timeToX_on_canvas; [exact Hw | apply Htimes; exact He]|]).
  - destruct (HF e He) as [Hs _]. unfold speedToY.
    assert (Hf : 0 <= (e_speed e - 0) / (8000 - 0) <= 1)
      by (apply unit_fraction; lra).
    nra.
  - destruct (HF e He) as [_ Hheat]. unfold heatToY.
    set (v := e_effectiveHeat e * effectiveHeatScale).
    assert (Hv : 0 <= v).
    { unfold v, effectiveHeatScale. apply Rmult_le_pos; lra. }
    assert (HM : 1 <= effectiveHeatMax history /\ v <= effectiveHeatMax history).
    { unfold effectiveHeatMax.
      match goal with
      | |- 1 <= Math_max 1 ?xs /\ _ => destruct (Math_max_ge 1 xs) as [H1 H2]
      end.
      split; [exact H1|]. rewrite Forall_forall in H2.
      apply Rge_le. apply H2.
      apply (in_map (fun d => e_effectiveHeat d * effectiveHeatScale)).
      exact He. }
    assert (Hf : 0 <= (v - 0) / (effectiveHeatMax history - 0) <= 1)
      by (apply unit_fraction; lra).
    nra.
Qed.

Lemma curves_stay_on_the_canvas_witness :
  exists d,
    draw 300 150 [mkEntry 0 7222.22 0; mkEntry 16 7200 0.004] = Some d /\
    forall c, In c (speedCurve d) ->
      0 <= fst (target c) <= 300 /\ 0 <= snd (target c) <= 150.
Proof.
  eexists. split; [reflexivity|]. intros c Hc.
  eapply (curves_stay_on_the_canvas 300 150
            [mkEntry 0 7222.22 0; mkEntry 16 7200 0.004]);
    [lra | lra | repeat constructor; cbn; lra | reflexivity
    | left; exact Hc].
Defined.

End Graph.
